(** * Certificate platform backend: the bulk issuance pipeline

    A shallow embedding of [src/index.js] (the PDF server) and of the one
    place where its sibling copy [src/unnamed/part_000] (the PNG server)
    differs in behaviour for the pipeline: [sendCertificateEmail].

    - [Js]       : strings, values, completions and regular expressions, as
                   much of JavaScript as [validateCsvRow] uses;
    - [Validator]: [validateCsvRow];
    - [Promise]  : settlement of promises over an idealised clock, and
                   [Promise.race];
    - [Server]   : the collaborators (uuid source, PDF renderer, object
                   store, database, mail transport), [uploadToSupabase],
                   [sendCertificateEmail] and the handler of
                   [POST /api/admin/upload-csv], on the rows of an
                   accepted CSV file;
    - [Spec], [Run], [Loop]: the words of the specification (the shape
                   of an address, the steps of a pass and their answers,
                   the entries of a loop), used to state the properties;
    - then the properties, the validator's first.

    The world the handler changes is a draw counter for [uuidv4], the
    storage bucket, the documents of the database and the messages handed
    to the mail transport.  Console output is left out.

    Strings are Rocq strings read as sequences of code units below 256;
    [trim], [toLowerCase] and the class [\s] are the restrictions of the
    JavaScript ones to that range. *)

From Stdlib Require Import Ascii String NArith Lia.
From stdpp Require Import base gmap strings list pretty.

Open Scope string_scope.

(* ===================================================================== *)
(** * JavaScript fragments                                                *)
(* ===================================================================== *)

Module Js.

(** ** Strings *)

(** WhiteSpace and LineTerminator code units below 256: TAB, LF, VT, FF,
    CR, SP and NBSP.  [String.prototype.trim] strips them and [\s] matches
    them. *)
Definition is_white_space (c : ascii) : bool :=
  let n := nat_of_ascii c in
  ((9 <=? n)%nat && (n <=? 13)%nat) || (n =? 32)%nat || (n =? 160)%nat.

Fixpoint trimStart (s : string) : string :=
  match s with
  | EmptyString => EmptyString
  | String c r => if is_white_space c then trimStart r else s
  end.

Fixpoint trimEnd (s : string) : string :=
  match s with
  | EmptyString => EmptyString
  | String c r =>
      let r' := trimEnd r in
      if is_white_space c && String.eqb r' "" then "" else String c r'
  end.

Definition trim (s : string) : string := trimEnd (trimStart s).

(** Lower-casing of one code unit below 256: A-Z, and the Latin-1 capitals
    U+00C0..U+00DE except the multiplication sign U+00D7. *)
Definition lower_unit (c : ascii) : ascii :=
  let n := nat_of_ascii c in
  if ((65 <=? n)%nat && (n <=? 90)%nat)
     || ((192 <=? n)%nat && (n <=? 222)%nat && negb (n =? 215)%nat)
  then ascii_of_nat (n + 32) else c.

Fixpoint toLowerCase (s : string) : string :=
  match s with
  | EmptyString => EmptyString
  | String c r => String (lower_unit c) (toLowerCase r)
  end.

(** [s.includes(t)] *)
Definition includes (s t : string) : bool :=
  match String.index 0 t s with Some _ => true | None => false end.

(** ** Values, errors, completions *)

(** The values a parsed CSV row can hold under a key: a string, or
    [undefined] when the key is absent. *)
Inductive Value : Type :=
  | undefined
  | str (s : string).

(** ToBoolean *)
Definition truthy (v : Value) : bool :=
  match v with
  | undefined => false
  | str s => negb (String.eqb s "")
  end.

(** [a || b] *)
Definition or (a b : Value) : Value := if truthy a then a else b.

(** ToString *)
Definition ToString (v : Value) : string :=
  match v with
  | undefined => "undefined"
  | str s => s
  end.

Record Error : Type := mkError { name : string; message : string }.

Definition new_Error (msg : string) : Error := mkError "Error" msg.
Definition TypeError (msg : string) : Error := mkError "TypeError" msg.

(** The completion of an expression: a value, or a thrown exception. *)
Inductive Completion (A : Type) : Type :=
  | Return (a : A)
  | Throw (e : Error).
Arguments Return {A} a.
Arguments Throw {A} e.

#[global] Instance Completion_ret : MRet Completion := fun A a => Return a.
#[global] Instance Completion_bind : MBind Completion := fun A B k m =>
  match m with
  | Return a => k a
  | Throw e => Throw e
  end.

(** [v.trim()]: a TypeError when [v] is undefined. *)
Definition call_trim (v : Value) : Completion string :=
  match v with
  | str s => Return (trim s)
  | undefined =>
      Throw (TypeError "Cannot read properties of undefined (reading 'trim')")
  end.

(** ** Regular expressions *)

(** The fragment used by the anchored pattern of [validateCsvRow]:
    character classes, concatenation, alternation and iteration. *)
Inductive RegExp : Type :=
  | Never
  | Eps
  | Class (p : ascii -> bool)
  | Seq (r1 r2 : RegExp)
  | Alt (r1 r2 : RegExp)
  | Star (r : RegExp).

(** [r+] *)
Definition Plus (r : RegExp) : RegExp := Seq r (Star r).

(** A literal character. *)
Definition Lit (c : ascii) : RegExp := Class (Ascii.eqb c).

(** The strings a pattern denotes. *)
Inductive Matches : RegExp -> string -> Prop :=
  | MEps : Matches Eps ""
  | MClass p c : p c = true -> Matches (Class p) (String c "")
  | MSeq r1 r2 s1 s2 :
      Matches r1 s1 -> Matches r2 s2 -> Matches (Seq r1 r2) (s1 ++ s2)
  | MAltL r1 r2 s : Matches r1 s -> Matches (Alt r1 r2) s
  | MAltR r1 r2 s : Matches r2 s -> Matches (Alt r1 r2) s
  | MStar0 r : Matches (Star r) ""
  | MStarS r s1 s2 :
      Matches r s1 -> Matches (Star r) s2 -> Matches (Star r) (s1 ++ s2).

(** The matcher, by derivatives. *)
Fixpoint nullable (r : RegExp) : bool :=
  match r with
  | Never => false
  | Eps => true
  | Class _ => false
  | Seq r1 r2 => nullable r1 && nullable r2
  | Alt r1 r2 => nullable r1 || nullable r2
  | Star _ => true
  end.

Fixpoint deriv (c : ascii) (r : RegExp) : RegExp :=
  match r with
  | Never => Never
  | Eps => Never
  | Class p => if p c then Eps else Never
  | Seq r1 r2 =>
      if nullable r1
      then Alt (Seq (deriv c r1) r2) (deriv c r2)
      else Seq (deriv c r1) r2
  | Alt r1 r2 => Alt (deriv c r1) (deriv c r2)
  | Star r1 => Seq (deriv c r1) (Star r1)
  end.

(** [/^r$/.test(s)] for a string [s]. *)
Fixpoint test_string (r : RegExp) (s : string) : bool :=
  match s with
  | EmptyString => nullable r
  | String c s' => test_string (deriv c r) s'
  end.

(** [/^r$/.test(v)]: the argument is converted with ToString. *)
Definition test (r : RegExp) (v : Value) : bool := test_string r (ToString v).

End Js.

Infix "|||" := Js.or (at level 50, left associativity).

(* ===================================================================== *)
(** * The row validator                                                   *)
(* ===================================================================== *)

Module Validator.
Import Js.

(** A row as csv-parser hands it over: header name to cell text. *)
Abbreviation RawRow := (gmap string string).

(** [row[key]] *)
Definition get (row : RawRow) (key : string) : Value :=
  match row !! key with
  | Some s => str s
  | None => undefined
  end.

Record Student : Type := mkStudent {
  studentName : string;
  email : string;
  programName : string
}.

(** [{ valid: false, error }] or [{ valid: true, data }] *)
Inductive Validation : Type :=
  | invalid (error : string)
  | valid (data : Student).

(** [[^\s@]] *)
Definition not_space_or_at (c : ascii) : bool :=
  negb (is_white_space c || Ascii.eqb c "@").

(** [/^[^\s@]+@[^\s@]+\.[^\s@]+$/] *)
Definition emailRegex : RegExp :=
  Seq (Plus (Class not_space_or_at))
   (Seq (Lit "@")
    (Seq (Plus (Class not_space_or_at))
     (Seq (Lit ".")
          (Plus (Class not_space_or_at))))).

Definition resolve_studentName (row : RawRow) : Value :=
  get row "Name" ||| get row "name" ||| get row "Student Name"
    ||| get row "student_name".

Definition resolve_email (row : RawRow) : Value :=
  get row "Email" ||| get row "email".

Definition resolve_programName (row : RawRow) : Value :=
  get row "Program" ||| get row "program" ||| str "General Program".

Definition missing_fields : string := "Missing required fields: Name and Email".

Definition invalid_email (email : Value) : string :=
  "Invalid email format: " ++ ToString email.

Definition validateCsvRow (row : RawRow) : Completion Validation :=
  let studentName := resolve_studentName row in
  let email := resolve_email row in
  let programName := resolve_programName row in
  if negb (truthy studentName) || negb (truthy email) then
    Return (invalid missing_fields)
  else if negb (test emailRegex email) then
    Return (invalid (invalid_email email))
  else
    n ← call_trim studentName;
    e ← call_trim email;
    p ← call_trim programName;
    Return (valid (mkStudent n (toLowerCase e) p)).

End Validator.

(* ===================================================================== *)
(** * Promises over an idealised clock                                    *)
(* ===================================================================== *)

Module Promise.
Import Js.

(** How a promise ends, [at_ms] milliseconds after it was created. *)
Inductive Settled (A : Type) : Type :=
  | Fulfilled (at_ms : N) (a : A)
  | Rejected (at_ms : N) (e : Error).
Arguments Fulfilled {A} at_ms a.
Arguments Rejected {A} at_ms e.

(** A promise settles, or stays pending for ever. *)
Inductive t (A : Type) : Type :=
  | Settles (s : Settled A)
  | Pending.
Arguments Settles {A} s.
Arguments Pending {A}.

Definition settled_at {A : Type} (s : Settled A) : N :=
  match s with
  | Fulfilled at_ms _ => at_ms
  | Rejected at_ms _ => at_ms
  end.

(** [new Promise((_, reject) => setTimeout(() => reject(e), ms))] *)
Definition reject_after {A : Type} (ms : N) (e : Error) : Settled A :=
  Rejected ms e.

(** [Promise.race([p, timer])] for a [timer] that is sure to settle: the
    one that settles first wins, [p] (first in the array) on a tie. *)
Definition race {A : Type} (p : t A) (timer : Settled A) : Settled A :=
  match p with
  | Pending => timer
  | Settles s => if (settled_at s <=? settled_at timer)%N then s else timer
  end.

(** [await s] for a promise that settles. *)
Definition await {A : Type} (s : Settled A) : Completion A :=
  match s with
  | Fulfilled _ a => Return a
  | Rejected _ e => Throw e
  end.

End Promise.

(* ===================================================================== *)
(** * The server                                                          *)
(* ===================================================================== *)

Module Server.
Import Js Validator.

Abbreviation Buffer := string.

(** A document of the [Certificate] model ([createdAt] left out). *)
Record Certificate : Type := mkCertificate {
  cert_certificateId : string;
  cert_studentName : string;
  cert_email : string;
  cert_programName : string;
  cert_certificateUrl : string;
  cert_certificateFileType : string;
  cert_certificateImageUrl : string;
  cert_dateOfIssue : N
}.

(** The [error] object of a Supabase storage response. *)
Record StorageError : Type := mkStorageError {
  se_message : Value;
  se_statusCode : Value
}.

(** The interpolated parts of the message handed to the transporter. *)
Record MailOptions : Type := mkMailOptions {
  mail_from : string;
  mail_to : string;
  mail_subject : string;
  mail_studentName : string;
  mail_verificationUrl : string
}.

(** What lies outside the process.  Each collaborator may answer
    differently from one pipeline pass to the next: its first argument is
    the number of certificate ids drawn so far. *)
Record Collaborators : Type := mkCollaborators {
  (** [process.env.SUPABASE_URL], [process.env.EMAIL_USER] *)
  SUPABASE_URL : string;
  EMAIL_USER : string;
  (** the [n]-th value of the random source behind [uuidv4()] *)
  uuid_source : nat -> string;
  (** [new Date()] *)
  clock : nat -> N;
  (** the bytes PDFKit emits for the drawing of [generateCertificate], or
      the error it raises *)
  pdfkit : string -> string -> string -> N -> Completion Buffer;
  (** the [error] of [supabase.storage.from('Mediseek').upload(...)] *)
  storage_upload : nat -> string -> Buffer -> option StorageError;
  (** [supabase.storage.from('Mediseek').getPublicUrl(fileName)] *)
  getPublicUrl : string -> string;
  (** the error of [certificate.save()], given the stored documents *)
  db_save : nat -> list Certificate -> Certificate -> option Error;
  (** [transporter.sendMail(mailOptions)], resolving to [info.response] *)
  sendMail : nat -> MailOptions -> Promise.t string
}.

(** What the handler changes. *)
Record World : Type := mkWorld {
  draws : nat;
  bucket : gmap string Buffer;
  certificates : list Certificate;
  outbox : list MailOptions
}.

(** An asynchronous computation awaited to its completion. *)
Definition Async (A : Type) : Type := World -> World * Completion A.

#[global] Instance Async_ret : MRet Async := fun A a w => (w, Return a).
#[global] Instance Async_bind : MBind Async := fun A B k m w =>
  match m w with
  | (w', Return a) => k a w'
  | (w', Throw e) => (w', Throw e)
  end.

(** [try { body } catch (error) { handler }] *)
Definition try_catch {A : Type} (body : Async A) (handler : Error -> Async A)
  : Async A :=
  fun w =>
    match body w with
    | (w', Return a) => (w', Return a)
    | (w', Throw e) => handler e w'
    end.

Definition lift {A : Type} (c : Completion A) : Async A := fun w => (w, c).

Definition nl : string := String (ascii_of_nat 10) "".
Definition dq : string := String (ascii_of_nat 34) "".

Section WithCollaborators.
Variable env : Collaborators.

(** [uuidv4()] *)
Definition uuidv4 : Async string := fun w =>
  (mkWorld (S (draws w)) (bucket w) (certificates w) (outbox w),
   Return (uuid_source env (draws w))).

(** [new Date()] *)
Definition new_Date : Async N := fun w => (w, Return (clock env (draws w))).

(** [generateCertificate]: the promise is returned, not awaited, inside
    the [try], so a rejection reaches the caller as it is. *)
Definition generateCertificate
    (studentName certificateId programName : string) (dateOfIssue : N)
  : Async Buffer :=
  lift (pdfkit env studentName certificateId programName dateOfIssue).

Definition dns_message : string :=
  "DNS resolution failed. Cannot reach Supabase at " ++ SUPABASE_URL env
  ++ ". Please verify:" ++ nl
  ++ "   1. The Supabase project exists and is active" ++ nl
  ++ "   2. The URL is correct (check Supabase dashboard)" ++ nl
  ++ "   3. Your internet connection is working".

Definition rls_message : string :=
  "Row Level Security (RLS) Policy Error. Even though your bucket is set to "
  ++ dq ++ "public" ++ dq
  ++ ", you still need RLS policies for UPLOADS (INSERT operations). "
  ++ "Add SUPABASE_SERVICE_ROLE_KEY to your .env file or configure RLS "
  ++ "policies in Supabase Dashboard.".

(** The error [uploadToSupabase] throws for a storage [error]. *)
Definition upload_error (error : StorageError) : Error :=
  let msg := se_message error in
  if truthy msg && includes (ToString msg) "ENOTFOUND" then
    new_Error dns_message
  else if truthy msg
          && (includes (ToString msg) "row-level security policy"
              || match se_statusCode error with
                 | str "403" => true
                 | _ => false
                 end)
  then new_Error rls_message
  else new_Error ("Failed to upload certificate: " ++ ToString msg).

Definition uploadToSupabase (buffer : Buffer) (certificateId : string)
  : Async string :=
  fun w =>
    let fileName := "Mediseek/" ++ certificateId ++ ".pdf" in
    match storage_upload env (draws w) fileName buffer with
    | Some error => (w, Throw (upload_error error))
    | None =>
        (mkWorld (draws w) (<[fileName := buffer]> (bucket w))
                 (certificates w) (outbox w),
         Return (getPublicUrl env fileName))
    end.

(** [certificate.save()] *)
Definition save (certificate : Certificate) : Async unit := fun w =>
  match db_save env (draws w) (certificates w) certificate with
  | Some e => (w, Throw e)
  | None =>
      (mkWorld (draws w) (bucket w) (certificates w ++ [certificate])
               (outbox w),
       Return tt)
  end.

Definition verificationUrl (certificateId : string) : string :=
  "https://upgradtask-frontend.vercel.app/certificate/" ++ certificateId.

(** The subject starts with U+1F393 and a space; it is held here as its
    UTF-8 bytes. *)
Definition mailOptions (email studentName certificateId : string)
  : MailOptions :=
  mkMailOptions (EMAIL_USER env) email
    "🎓 Your Certificate has been Generated!" studentName
    (verificationUrl certificateId).

Definition email_timeout_ms : N := 15000.

(** [Promise.race([transporter.sendMail(mailOptions), <timer>])] of
    [src/index.js], for the transport's answer in pass [n]. *)
Definition sendMail_race (n : nat) (options : MailOptions)
  : Promise.Settled string :=
  Promise.race (sendMail env n options)
    (Promise.reject_after email_timeout_ms (new_Error "Email send timeout")).

(** [sendCertificateEmail] of [src/index.js] *)
Definition sendCertificateEmail (email studentName certificateId : string)
  : Async unit :=
  fun w =>
    let options := mailOptions email studentName certificateId in
    (mkWorld (draws w) (bucket w) (certificates w) (outbox w ++ [options]),
     _ ← Promise.await (sendMail_race (draws w) options); Return tt).

(** [sendCertificateEmail] of [src/unnamed/part_000]: the transport's
    promise is awaited as it is; what the caller gets is a promise that
    settles when, and if, the transport's does. *)
Definition sendCertificateEmail_png
    (email studentName certificateId : string) (w : World)
  : World * Promise.t unit :=
  let options := mailOptions email studentName certificateId in
  (mkWorld (draws w) (bucket w) (certificates w) (outbox w ++ [options]),
   match sendMail env (draws w) options with
   | Promise.Settles (Promise.Fulfilled at_ms _) =>
       Promise.Settles (Promise.Fulfilled at_ms tt)
   | Promise.Settles (Promise.Rejected at_ms e) =>
       Promise.Settles (Promise.Rejected at_ms e)
   | Promise.Pending => Promise.Pending
   end).

(** ** [POST /api/admin/upload-csv] *)

(** An entry of [errors]. *)
Record RowError : Type := mkRowError {
  re_row : RawRow;
  re_error : string
}.

(** An entry of [processedCertificates]. *)
Record Processed : Type := mkProcessed {
  p_studentName : string;
  p_email : string;
  p_certificateId : string;
  p_status : string;
  p_certificateUrl : string
}.

(** An entry of [failedCertificates]. *)
Record Failed : Type := mkFailed {
  f_studentName : string;
  f_email : string;
  f_status : string;
  f_error : string
}.

Record Summary : Type := mkSummary {
  totalRecords : nat;
  successfullyProcessed : nat;
  failed_count : nat
}.

Inductive Body : Type :=
  | NoValidRecords (error : string) (validationErrors : list RowError)
  | Report (message : string) (summary : Summary)
           (processed : list Processed) (failed : list Failed)
           (csvValidationErrors : list RowError).

Record Response : Type := mkResponse { status : N; body : Body }.

(** The ['data'] handler, over every row of the parsed file. *)
Fixpoint on_data (rows : list RawRow)
    (results : list Student) (errors : list RowError)
  : Completion (list Student * list RowError) :=
  match rows with
  | [] => Return (results, errors)
  | row :: rows' =>
      validation ← validateCsvRow row;
      match validation with
      | valid data => on_data rows' (results ++ [data]) errors
      | invalid error =>
          on_data rows' results (errors ++ [mkRowError row error])
      end
  end.

(** The body of the [try] of the processing loop. *)
Definition issue (student : Student) : Async Processed :=
  uuid ← uuidv4;
  let certificateId := "cert_" ++ uuid in
  dateOfIssue ← new_Date;
  pdfBuffer ← generateCertificate (studentName student) certificateId
                (programName student) dateOfIssue;
  certificateUrl ← uploadToSupabase pdfBuffer certificateId;
  let certificate :=
    mkCertificate certificateId (studentName student) (email student)
      (programName student) certificateUrl "application/pdf" certificateUrl
      dateOfIssue in
  _ ← save certificate;
  _ ← sendCertificateEmail (email student) (studentName student)
        certificateId;
  mret (mkProcessed (studentName student) (email student) certificateId
          "Success" certificateUrl).

(** One turn of the loop: the [try] and its [catch]. *)
Definition process_student (student : Student) : Async (Processed + Failed) :=
  try_catch
    (p ← issue student; mret (inl p))
    (fun error =>
       mret (inr (mkFailed (studentName student) (email student) "Failed"
                    (message error)))).

(** [for (const student of results) { ... }] *)
Fixpoint process_students (students : list Student)
    (processedCertificates : list Processed)
    (failedCertificates : list Failed)
  : Async (list Processed * list Failed) :=
  match students with
  | [] => mret (processedCertificates, failedCertificates)
  | student :: rest =>
      outcome ← process_student student;
      match outcome with
      | inl p =>
          process_students rest (processedCertificates ++ [p])
            failedCertificates
      | inr f =>
          process_students rest processedCertificates
            (failedCertificates ++ [f])
      end
  end.

(** The ['end'] handler. *)
Definition on_end (results : list Student) (errors : list RowError)
  : Async Response :=
  if (length results =? 0)%nat then
    mret (mkResponse 400
            (NoValidRecords "No valid records found in CSV" errors))
  else
    '(processedCertificates, failedCertificates) ←
        process_students results [] [];
    mret (mkResponse 200
            (Report "CSV processing completed"
               (mkSummary (length results) (length processedCertificates)
                  (length failedCertificates))
               processedCertificates failedCertificates errors)).

(** The handler on the rows of an uploaded CSV file.  A [Throw] is an
    exception that no handler catches. *)
Definition upload_csv (rows : list RawRow) : Async Response :=
  '(results, errors) ← lift (on_data rows [] []);
  on_end results errors.

End WithCollaborators.

End Server.

Import Js Validator Server.

(* ===================================================================== *)
(** * The specification's vocabulary                                      *)
(* ===================================================================== *)

Module Spec.
Import Js Validator.

(** Every code unit of [s] satisfies [p]. *)
Fixpoint all_units (p : ascii -> bool) (s : string) : bool :=
  match s with
  | EmptyString => true
  | String c r => p c && all_units p r
  end.

(** A non-empty run of characters other than white space and [@]. *)
Definition atom (s : string) : Prop :=
  s <> "" /\ all_units not_space_or_at s = true.

(** The two-part shape of an address: a local part, [@], and a domain
    with a dot in it. *)
Definition two_part_shape (email : string) : Prop :=
  exists local d1 d2 : string,
    email = local ++ "@" ++ d1 ++ "." ++ d2
    /\ atom local /\ atom d1 /\ atom d2.

(** The headers [validateCsvRow] reads. *)
Definition name_keys : list string :=
  ["Name"; "name"; "Student Name"; "student_name"].
Definition email_keys : list string := ["Email"; "email"].
Definition program_keys : list string := ["Program"; "program"].

(** A field that is absent from the row, or present and empty. *)
Definition absent_or_empty (v : Value) : Prop := v = undefined \/ v = str "".

(** The value under the first of [keys], spelled exactly, that the row
    holds with a non-empty cell. *)
Fixpoint first_nonempty (row : RawRow) (keys : list string) : option string :=
  match keys with
  | [] => None
  | k :: ks =>
      match row !! k with
      | Some s => if String.eqb s "" then first_nonempty row ks else Some s
      | None => first_nonempty row ks
      end
  end.

(** The non-empty string a value is, if it is one. *)
Definition nonempty (v : Value) : option string :=
  match v with
  | undefined => None
  | str s => if String.eqb s "" then None else Some s
  end.

(** Case-insensitive reading of a column, as the specification words it:
    the cells whose header equals [alias] up to letter case. *)
Definition columns_ci (row : RawRow) (alias : string) : list string :=
  snd <$> filter (fun kv => toLowerCase kv.1 = toLowerCase alias)
                 (map_to_list row).

End Spec.

Import Spec.

(* ===================================================================== *)
(** * One pipeline pass, seen from outside                                *)
(* ===================================================================== *)

(** What the collaborators are asked, and what they answer, in the pass
    that starts in world [w] for recipient [s]. *)
Module Run.
Import Js Validator Server.

Section WithCollaborators.
Variable env : Collaborators.

(** The identifier of the [k]-th draw. *)
Definition id_of (k : nat) : string := "cert_" ++ uuid_source env k.

(** The identifier the pass draws. *)
Definition id_at (w : World) : string := id_of (draws w).

Definition date_at (w : World) : N := clock env (S (draws w)).

Definition file_at (w : World) : string := "Mediseek/" ++ id_at w ++ ".pdf".

Definition url_at (w : World) : string := getPublicUrl env (file_at w).

(** Render step. *)
Definition rendered (s : Student) (w : World) : Completion Buffer :=
  pdfkit env (studentName s) (id_at w) (programName s) (date_at w).

(** Store step: the storage service's error, if any. *)
Definition store_answer (w : World) (pdf : Buffer) : option StorageError :=
  storage_upload env (S (draws w)) (file_at w) pdf.

Definition certificate_at (s : Student) (w : World) : Certificate :=
  mkCertificate (id_at w) (studentName s) (email s) (programName s)
    (url_at w) "application/pdf" (url_at w) (date_at w).

(** Persist step: the database's error, if any. *)
Definition persist_answer (s : Student) (w : World) : option Error :=
  db_save env (S (draws w)) (certificates w) (certificate_at s w).

Definition options_at (s : Student) (w : World) : MailOptions :=
  mailOptions env (email s) (studentName s) (id_at w).

(** Notify step of [src/index.js]: how the raced send settles. *)
Definition notify_answer (s : Student) (w : World) : Promise.Settled string :=
  sendMail_race env (S (draws w)) (options_at s w).

Definition entry_processed (s : Student) (w : World) : Processed :=
  mkProcessed (studentName s) (email s) (id_at w) "Success" (url_at w).

Definition entry_failed (s : Student) (e : Error) : Failed :=
  mkFailed (studentName s) (email s) "Failed" (message e).

(** All four steps succeed for [s] in the pass that starts in [w]. *)
Definition steps_succeed (s : Student) (w : World) : Prop :=
  exists pdf at_ms info,
    rendered s w = Return pdf
    /\ store_answer w pdf = None
    /\ persist_answer s w = None
    /\ notify_answer s w = Promise.Fulfilled at_ms info.

(** The world after the pass for [s]. *)
Definition after_pass (s : Student) (w : World) : World :=
  (process_student env s w).1.

(** All steps succeed for every recipient of the loop started in [w]. *)
Fixpoint all_succeed (students : list Student) (w : World) : Prop :=
  match students with
  | [] => True
  | s :: rest => steps_succeed s w /\ all_succeed rest (after_pass s w)
  end.

End WithCollaborators.

(** The transport has not answered when the timer of [ms] fires. *)
Definition late {A : Type} (ms : N) (p : Promise.t A) : Prop :=
  match p with
  | Promise.Pending => True
  | Promise.Settles s => (ms < Promise.settled_at s)%N
  end.

(** The recipients and the row errors the ['data'] handler collects. *)
Definition accepted (row : RawRow) : option Student :=
  match validateCsvRow row with
  | Return (valid data) => Some data
  | _ => None
  end.

Definition rejected (row : RawRow) : option RowError :=
  match validateCsvRow row with
  | Return (invalid error) => Some (mkRowError row error)
  | _ => None
  end.

Definition valid_students (rows : list RawRow) : list Student :=
  omap accepted rows.

Definition row_errors (rows : list RawRow) : list RowError :=
  omap rejected rows.

End Run.

Import Run.

(** ** The loop, seen from outside *)

Module Loop.
Import Js Validator Server Run.

Section WithCollaborators.
Variable env : Collaborators.

(** The world after the passes for [students], started in [w]. *)
Fixpoint after_passes (students : list Student) (w : World) : World :=
  match students with
  | [] => w
  | s :: rest => after_passes rest (after_pass env s w)
  end.

(** The entry each pass yields, in the order of [students]. *)
Fixpoint outcomes (students : list Student) (w : World)
  : list (Processed + Failed) :=
  match students with
  | [] => []
  | s :: rest =>
      match (process_student env s w).2 with
      | Return outcome => outcome :: outcomes rest (after_pass env s w)
      | Throw _ => outcomes rest (after_pass env s w)
      end
  end.

End WithCollaborators.

Definition succeeded_of (os : list (Processed + Failed)) : list Processed :=
  omap (fun o => match o with inl p => Some p | inr _ => None end) os.

Definition failed_of (os : list (Processed + Failed)) : list Failed :=
  omap (fun o => match o with inl _ => None | inr f => Some f end) os.

End Loop.

Import Loop.

(** ** Environments and rows for the examples *)

Definition demo_url (fileName : string) : string :=
  "https://demo.supabase.co/storage/v1/object/public/" ++ fileName.

(** Every collaborator answers, the mail transport after 120 ms. *)
Definition env_ok : Collaborators :=
  mkCollaborators "https://demo.supabase.co" "certs@example.org"
    pretty N.of_nat
    (fun name id _ _ => Return ("%PDF " ++ id ++ " " ++ name))
    (fun _ _ _ => None) demo_url (fun _ _ _ => None)
    (fun _ _ => Promise.Settles (Promise.Fulfilled 120 "250 OK")).

(** The mail transport refuses every message. *)
Definition env_mail_down : Collaborators :=
  mkCollaborators "https://demo.supabase.co" "certs@example.org"
    pretty N.of_nat
    (fun name id _ _ => Return ("%PDF " ++ id ++ " " ++ name))
    (fun _ _ _ => None) demo_url (fun _ _ _ => None)
    (fun _ _ =>
       Promise.Settles (Promise.Rejected 40 (new_Error "connect ECONNREFUSED"))).

(** The mail transport never answers. *)
Definition env_mail_hangs : Collaborators :=
  mkCollaborators "https://demo.supabase.co" "certs@example.org"
    pretty N.of_nat
    (fun name id _ _ => Return ("%PDF " ++ id ++ " " ++ name))
    (fun _ _ _ => None) demo_url (fun _ _ _ => None)
    (fun _ _ => Promise.Pending).

Definition access_denied : StorageError :=
  mkStorageError (str "new row violates row-level security policy")
                 (str "403").

(** The object store denies the first upload and accepts the later ones. *)
Definition env_store_denied : Collaborators :=
  mkCollaborators "https://demo.supabase.co" "certs@example.org"
    pretty N.of_nat
    (fun name id _ _ => Return ("%PDF " ++ id ++ " " ++ name))
    (fun n _ _ => if (n =? 1)%nat then Some access_denied else None)
    demo_url (fun _ _ _ => None)
    (fun _ _ => Promise.Settles (Promise.Fulfilled 120 "250 OK")).

Definition world0 : World := mkWorld 0 ∅ [] [].

Definition row_upper_case : RawRow :=
  {[ "NAME" := "Ann Lee"; "EMAIL" := "ann@x.com" ]}.

Definition row_blank_name : RawRow :=
  {[ "Name" := "   "; "Email" := "a@b.com" ]}.

Definition ann : Student := mkStudent "Ann Lee" "ann@x.com" "General Program".
Definition bo : Student := mkStudent "Bo" "bo@y.org" "Rocq 101".

Definition row_ann : RawRow := {[ "Name" := "Ann Lee"; "Email" := "ann@x.com" ]}.
Definition row_bo : RawRow :=
  {[ "name" := "Bo"; "email" := "Bo@Y.org"; "program" := " Rocq 101 " ]}.
Definition row_no_email : RawRow := {[ "Name" := "Cy" ]}.
Definition row_not_an_email : RawRow :=
  {[ "Name" := "Bo"; "Email" := "not-an-email" ]}.

(** Case analysis on the cells a chain of [||] reads, and on their
    emptiness. *)
Ltac by_cells row :=
  simpl;
  repeat match goal with
         | |- context [row !! ?k] => destruct (row !! k) as [?|]; simpl
         end;
  repeat match goal with
         | H : String.eqb ?s "" = _ |- _ => rewrite H; simpl
         | |- context [String.eqb ?s ""] =>
             destruct (String.eqb s "") eqn:?; simpl
         end;
  reflexivity.

(* ===================================================================== *)
(** * The rest of the server                                              *)
(* ===================================================================== *)

(** ** More of JavaScript's strings *)

Module JsString.
Import Js.

(** [s.startsWith(t)] *)
Definition startsWith (s t : string) : bool := String.prefix t s.


(** [a === b] on values that are strings or undefined. *)
Definition strict_eq (a b : Value) : bool :=
  match a, b with
  | undefined, undefined => true
  | str s, str t => String.eqb s t
  | _, _ => false
  end.

End JsString.

(** ** Start-up checks *)

Module Startup.
Import Js Validator JsString.

Definition requiredEnvVars : list string :=
  ["MONGODB_URI"; "SUPABASE_URL"; "SUPABASE_KEY"; "EMAIL_USER";
   "EMAIL_PASSWORD"; "FRONTEND_URL"].

(** [requiredEnvVars.filter(varName => !process.env[varName])], for
    [process.env] as a map from names to strings. *)
Definition missingEnvVars (process_env : gmap string string) : list string :=
  List.filter (fun varName => negb (truthy (get process_env varName)))
    requiredEnvVars.

(** How the module's top level goes, up to the creation of the Supabase
    client: [process.exit(code)] in one of the checks, or
    [createClient(supabaseUrl, supabaseKey)] is called and throws, or it
    is called and returns. *)
Inductive Boot : Type :=
  | Exit (code : N)
  | Uncaught (e : Error)
  | ClientCreated (supabaseUrl supabaseKey : string).

(** [createClient url key] is the error [createClient] of supabase-js
    throws for these arguments, if any. *)
Definition boot (createClient : string -> string -> option Error)
    (process_env : gmap string string) : Boot :=
  if (0 <? length (missingEnvVars process_env))%nat then Exit 1
  else
    let supabaseUrl := get process_env "SUPABASE_URL" in
    if negb (truthy supabaseUrl)
       || negb (startsWith (ToString supabaseUrl) "https://")
    then Exit 1
    else
      let supabaseKey :=
        get process_env "SUPABASE_SERVICE_ROLE_KEY"
        ||| get process_env "SUPABASE_KEY" in
      if truthy (get process_env "SUPABASE_SERVICE_ROLE_KEY")
         && strict_eq (get process_env "SUPABASE_SERVICE_ROLE_KEY")
              (get process_env "SUPABASE_KEY")
      then Exit 1
      else
        match createClient (ToString supabaseUrl) (ToString supabaseKey) with
        | Some e => Uncaught e
        | None => ClientCreated (ToString supabaseUrl) (ToString supabaseKey)
        end.

(** The start-up checks pass, and leave [url] and [key] for the client:
    each required variable is set and not empty, [SUPABASE_URL] is [url]
    and starts with [https://], and [key] is the service role key, which
    then differs from [SUPABASE_KEY], if that is set and not empty, else
    [SUPABASE_KEY]. *)
Definition checks_pass (process_env : gmap string string)
    (url key : string) : Prop :=
  (forall v, v ∈ requiredEnvVars ->
     exists s, process_env !! v = Some s /\ s <> "")
  /\ process_env !! "SUPABASE_URL" = Some url
  /\ (exists rest, url = "https://" ++ rest)
  /\ exists anon,
       process_env !! "SUPABASE_KEY" = Some anon
       /\ match Spec.nonempty (get process_env "SUPABASE_SERVICE_ROLE_KEY") with
          | Some service => service <> anon /\ key = service
          | None => key = anon
          end.

End Startup.

(** ** The routes *)

Module Routes.
Import Js Validator JsString Server.






(** The fields [GET /api/certificate/:certificateId] answers with. *)
Record CertificateData : Type := mkCertificateData {
  d_certificateId : string;
  d_studentName : string;
  d_email : string;
  d_programName : string;
  d_dateOfIssue : N;
  d_certificateUrl : string;
  d_certificateFileType : string;
  d_certificateImageUrl : string
}.

Inductive CertificateReply : Type :=
  | not_served (status : N) (error : string)
  | served (data : CertificateData).

(** [a || b] on fields of a stored document; a field the document lacks
    reads as the empty string. *)
Definition or_field (a b : string) : string :=
  if String.eqb a "" then b else a.

(** [Certificate.findOne({ certificateId })]: the first stored document
    with that identifier. *)
Definition findOne (docs : list Certificate) (certificateId : string)
  : option Certificate :=
  List.find (fun c => String.eqb (cert_certificateId c) certificateId) docs.

(** [GET /api/certificate/:certificateId]; [fault] is the error the
    database answers the query with, if any. *)
Definition get_certificate (fault : option Error) (certificateId : string)
    (w : World) : CertificateReply :=
  if String.eqb certificateId "" then
    not_served 400 "Certificate ID is required"
  else
    match fault with
    | Some error => not_served 500 (message error)
    | None =>
        match findOne (certificates w) certificateId with
        | None => not_served 404 "Certificate not found"
        | Some certificate =>
            served
              (mkCertificateData
                 (cert_certificateId certificate)
                 (cert_studentName certificate)
                 (cert_email certificate)
                 (cert_programName certificate)
                 (cert_dateOfIssue certificate)
                 (or_field (cert_certificateUrl certificate)
                    (cert_certificateImageUrl certificate))
                 (or_field (cert_certificateFileType certificate)
                    "application/pdf")
                 (or_field (cert_certificateImageUrl certificate)
                    (cert_certificateUrl certificate)))
        end
    end.

Section WithCollaborators.
Variable env : Collaborators.




End WithCollaborators.

End Routes.

(** ** What a batch leaves behind *)

Module Ledger.
Import Js Validator Server Run.

Section WithCollaborators.
Variable env : Collaborators.

(** The message [sendCertificateEmail] builds for a stored document. *)
Definition mail_of (c : Certificate) : MailOptions :=
  mailOptions env (cert_email c) (cert_studentName c) (cert_certificateId c).

(** The artifact's path for an identifier. *)
Definition file_of (certificateId : string) : string :=
  "Mediseek/" ++ certificateId ++ ".pdf".

(** A stored document and a stored artifact stand behind a succeeded
    entry. *)
Definition backed (w : World) (p : Processed) : Prop :=
  (exists c, c ∈ certificates w
     /\ cert_certificateId c = p_certificateId p
     /\ cert_studentName c = p_studentName p
     /\ cert_email c = p_email p
     /\ cert_certificateUrl c = p_certificateUrl p
     /\ cert_certificateImageUrl c = p_certificateUrl p
     /\ cert_certificateFileType c = "application/pdf")
  /\ is_Some (bucket w !! file_of (p_certificateId p))
  /\ p_certificateUrl p = getPublicUrl env (file_of (p_certificateId p)).

End WithCollaborators.

(** Who an entry is about. *)
Definition who (s : Student) : string * string := (studentName s, email s).
Definition who_processed (p : Processed) : string * string :=
  (p_studentName p, p_email p).
Definition who_failed (f : Failed) : string * string :=
  (f_studentName f, f_email f).
Definition who_outcome (o : Processed + Failed) : string * string :=
  match o with
  | inl p => who_processed p
  | inr f => who_failed f
  end.

(** A row goes to the recipients or to the row errors, never to both and
    never to neither. *)
Definition sorted_once (row : RawRow) : Prop :=
  (is_Some (accepted row) /\ rejected row = None)
  \/ (accepted row = None
      /\ exists error, rejected row = Some (mkRowError row error)).

(** A code unit of [s] is white space. *)
Fixpoint has_space (s : string) : bool :=
  match s with
  | EmptyString => false
  | String c r => is_white_space c || has_space r
  end.

(** The three kinds of upload error, read off the thrown message. *)
Inductive StoreErrorKind : Type :=
  | NetworkUnreachable
  | AccessDenied
  | UploadFailed.

Definition kind_of_message (msg : string) : option StoreErrorKind :=
  if String.prefix "DNS resolution failed. " msg then Some NetworkUnreachable
  else if String.prefix "Row Level Security (RLS) Policy Error. " msg
  then Some AccessDenied
  else if String.prefix "Failed to upload certificate: " msg
  then Some UploadFailed
  else None.

End Ledger.

Import JsString Startup Routes Ledger.

(** A process environment that passes the start-up checks. *)
Definition process_env_ok : gmap string string :=
  {[ "MONGODB_URI" := "mongodb://db/certs";
     "SUPABASE_URL" := "https://demo.supabase.co";
     "SUPABASE_KEY" := "anon-key";
     "SUPABASE_SERVICE_ROLE_KEY" := "service-key";
     "EMAIL_USER" := "certs@example.org";
     "EMAIL_PASSWORD" := "secret";
     "FRONTEND_URL" := "https://certs.example.org" ]}.

(** The database refuses every document. *)
Definition env_db_down : Collaborators :=
  mkCollaborators "https://demo.supabase.co" "certs@example.org"
    pretty N.of_nat
    (fun name id _ _ => Return ("%PDF " ++ id ++ " " ++ name))
    (fun _ _ _ => None) demo_url
    (fun _ _ _ => Some (new_Error "E11000 duplicate key error"))
    (fun _ _ => Promise.Settles (Promise.Fulfilled 120 "250 OK")).

(** The renderer fails on every certificate. *)
Definition env_render_fails : Collaborators :=
  mkCollaborators "https://demo.supabase.co" "certs@example.org"
    pretty N.of_nat
    (fun _ _ _ _ => Throw (new_Error "unknown font"))
    (fun _ _ _ => None) demo_url (fun _ _ _ => None)
    (fun _ _ => Promise.Settles (Promise.Fulfilled 120 "250 OK")).


(* ===================================================================== *)
(** * Properties of the JavaScript fragments                              *)
(* ===================================================================== *)

Section StringFacts.

Lemma append_nil_l (s : string) : "" ++ s = s.
Proof. reflexivity. Qed.

Lemma append_cons (c : ascii) (s t : string) :
  String c s ++ t = String c (s ++ t).
Proof. reflexivity. Qed.

Lemma append_nil_r (s : string) : s ++ "" = s.
Proof.
  induction s as [|c s IH]; [reflexivity|].
  now rewrite append_cons, IH.
Qed.

Lemma append_eq_nil (s1 s2 : string) : s1 ++ s2 = "" -> s1 = "" /\ s2 = "".
Proof. destruct s1; [auto | rewrite append_cons; discriminate]. Qed.

(** A split of [c :: s] either starts in the right part or in the left. *)
Lemma append_eq_cons (s1 s2 s : string) (c : ascii) :
  s1 ++ s2 = String c s ->
  (s1 = "" /\ s2 = String c s)
  \/ exists s1', s1 = String c s1' /\ s = s1' ++ s2.
Proof.
  destruct s1 as [|c1 s1]; intros H.
  - left. auto.
  - right. rewrite append_cons in H. injection H as -> <-. eauto.
Qed.

Lemma eqb_nil_false (s : string) : s <> "" -> String.eqb s "" = false.
Proof. intros H. apply String.eqb_neq. exact H. Qed.

End StringFacts.

Section RegExpFacts.

Lemma Matches_Seq_inv r1 r2 s :
  Matches (Seq r1 r2) s ->
  exists s1 s2, s = s1 ++ s2 /\ Matches r1 s1 /\ Matches r2 s2.
Proof. inversion 1; subst; eauto. Qed.

Lemma Matches_Alt_inv r1 r2 s :
  Matches (Alt r1 r2) s -> Matches r1 s \/ Matches r2 s.
Proof. inversion 1; subst; auto. Qed.

Lemma Matches_Class_inv p s :
  Matches (Class p) s -> exists c, s = String c "" /\ p c = true.
Proof. inversion 1; subst; eauto. Qed.

(** A non-empty match of [r*] starts with a non-empty match of [r]. *)
Lemma Matches_Star_cons r c s :
  Matches (Star r) (String c s) ->
  exists s1 s2, s = s1 ++ s2 /\ Matches r (String c s1) /\ Matches (Star r) s2.
Proof.
  intros H.
  remember (Star r) as r' eqn:Er. remember (String c s) as cs eqn:Es.
  revert s Es.
  induction H as [| | | | | |r0 s1 s2 H1 _ H2 IH2]; intros t Es;
    try discriminate.
  injection Er as ->.
  destruct (append_eq_cons _ _ _ _ Es) as [[-> ->]|[s1' [-> ->]]].
  - apply IH2; reflexivity.
  - eauto.
Qed.

Lemma nullable_Matches r : nullable r = true <-> Matches r "".
Proof.
  induction r as [| |p|r1 IH1 r2 IH2|r1 IH1 r2 IH2|r IH]; simpl.
  - split; [discriminate | inversion 1].
  - split; [constructor | reflexivity].
  - split; [discriminate | inversion 1].
  - rewrite andb_true_iff, IH1, IH2. split.
    + intros [H1 H2]. apply (MSeq _ _ "" "" H1 H2).
    + intros H. apply Matches_Seq_inv in H as (s1 & s2 & E & H1 & H2).
      symmetry in E. apply append_eq_nil in E as [-> ->]. auto.
  - rewrite orb_true_iff, IH1, IH2. split.
    + intros [H|H]; [apply MAltL | apply MAltR]; exact H.
    + apply Matches_Alt_inv.
  - split; [constructor | reflexivity].
Qed.

Lemma deriv_Matches r : forall c s,
  Matches (deriv c r) s <-> Matches r (String c s).
Proof.
  induction r as [| |p|r1 IH1 r2 IH2|r1 IH1 r2 IH2|r IH]; intros c s; simpl.
  - split; inversion 1.
  - split; inversion 1.
  - destruct (p c) eqn:Hp; split; intros H.
    + inversion H; subst. constructor. exact Hp.
    + apply Matches_Class_inv in H as (c' & E & _).
      injection E as -> ->. constructor.
    + inversion H.
    + apply Matches_Class_inv in H as (c' & E & Hc).
      injection E as -> ->. congruence.
  - assert (Hl : forall s1 s2, Matches (deriv c r1) s1 -> Matches r2 s2 ->
                   Matches (Seq r1 r2) (String c (s1 ++ s2))).
    { intros s1 s2 H1 H2. apply IH1 in H1.
      apply (MSeq _ _ (String c s1) s2 H1 H2). }
    split.
    + intros H.
      assert (Hcases : Matches (Seq (deriv c r1) r2) s
                       \/ (nullable r1 = true /\ Matches (deriv c r2) s)).
      { destruct (nullable r1); [|auto].
        apply Matches_Alt_inv in H as [H|H]; auto. }
      destruct Hcases as [H'|[Hn H']].
      * apply Matches_Seq_inv in H' as (s1 & s2 & -> & H1 & H2). auto.
      * apply nullable_Matches in Hn. apply IH2 in H'.
        apply (MSeq _ _ "" _ Hn H').
    + intros H. apply Matches_Seq_inv in H as (s1 & s2 & E & H1 & H2).
      symmetry in E.
      destruct (append_eq_cons _ _ _ _ E) as [[-> ->]|[s1' [-> ->]]].
      * apply nullable_Matches in H1. rewrite H1.
        apply MAltR. apply IH2. exact H2.
      * apply IH1 in H1.
        destruct (nullable r1); [apply MAltL|]; constructor; assumption.
  - split; intros H.
    + apply Matches_Alt_inv in H as [H|H];
        [apply MAltL, IH1 | apply MAltR, IH2]; exact H.
    + apply Matches_Alt_inv in H as [H|H];
        [apply MAltL, IH1 | apply MAltR, IH2]; exact H.
  - split; intros H.
    + apply Matches_Seq_inv in H as (s1 & s2 & -> & H1 & H2).
      apply IH in H1. apply (MStarS _ (String c s1) s2 H1 H2).
    + apply Matches_Star_cons in H as (s1 & s2 & -> & H1 & H2).
      constructor; [apply IH|]; assumption.
Qed.

(** The matcher decides the denotation. *)
Lemma test_string_Matches s : forall r,
  test_string r s = true <-> Matches r s.
Proof.
  induction s as [|c s IH]; intros r; simpl.
  - apply nullable_Matches.
  - rewrite IH. apply deriv_Matches.
Qed.

End RegExpFacts.

(* ===================================================================== *)
(** * Properties of the row validator                                     *)
(* ===================================================================== *)

Section EmailShape.

Lemma Matches_Star_Class p s :
  Matches (Star (Class p)) s <-> all_units p s = true.
Proof.
  induction s as [|c s IH]; simpl.
  - split; [reflexivity | constructor].
  - rewrite andb_true_iff, <- IH. split.
    + intros H. apply Matches_Star_cons in H as (s1 & s2 & -> & H1 & H2).
      apply Matches_Class_inv in H1 as (c' & E & Hc).
      injection E as -> ->. auto.
    + intros [Hc H].
      apply (MStarS _ (String c "") s); [constructor|]; assumption.
Qed.

Lemma Matches_Plus_Class p s :
  Matches (Plus (Class p)) s <-> s <> "" /\ all_units p s = true.
Proof.
  unfold Plus. split.
  - intros H. apply Matches_Seq_inv in H as (s1 & s2 & -> & H1 & H2).
    apply Matches_Class_inv in H1 as (c & -> & Hc).
    apply Matches_Star_Class in H2. rewrite append_cons, append_nil_l.
    simpl. rewrite Hc, H2. split; [discriminate | reflexivity].
  - intros [Hne H]. destruct s as [|c s]; [congruence|].
    simpl in H. apply andb_true_iff in H as [Hc H].
    apply (MSeq _ _ (String c "") s); [constructor; exact Hc|].
    apply Matches_Star_Class. exact H.
Qed.

Lemma Matches_Lit c s : Matches (Lit c) s <-> s = String c "".
Proof.
  unfold Lit. split.
  - intros H. apply Matches_Class_inv in H as (c' & -> & Hc).
    apply Ascii.eqb_eq in Hc. now subst.
  - intros ->. constructor. apply Ascii.eqb_refl.
Qed.

(** The pattern of [validateCsvRow] accepts exactly the two-part shape. *)
Lemma emailRegex_two_part_shape s :
  test_string emailRegex s = true <-> two_part_shape s.
Proof.
  rewrite test_string_Matches. unfold emailRegex, two_part_shape, atom. split.
  - intros H.
    apply Matches_Seq_inv in H as (l & s1 & -> & Hl & H).
    apply Matches_Seq_inv in H as (a & s2 & -> & Ha & H).
    apply Matches_Seq_inv in H as (d1 & s3 & -> & Hd1 & H).
    apply Matches_Seq_inv in H as (d & d2 & -> & Hd & Hd2).
    apply Matches_Lit in Ha as ->. apply Matches_Lit in Hd as ->.
    apply Matches_Plus_Class in Hl, Hd1, Hd2.
    exists l, d1, d2. auto.
  - intros (l & d1 & d2 & -> & Hl & Hd1 & Hd2).
    apply Matches_Plus_Class in Hl, Hd1, Hd2.
    repeat (constructor; try assumption); apply Matches_Lit; reflexivity.
Qed.

End EmailShape.

Section Resolution.

Lemma truthy_false_iff v : truthy v = false <-> absent_or_empty v.
Proof.
  unfold absent_or_empty. destruct v as [|s]; simpl.
  - split; auto.
  - rewrite negb_false_iff, String.eqb_eq. split.
    + intros ->. auto.
    + intros [H|H]; [discriminate | congruence].
Qed.

Lemma truthy_true_iff v : truthy v = true <-> exists s, v = str s /\ s <> "".
Proof.
  destruct v as [|s]; simpl.
  - split; [discriminate | intros (s & H & _); discriminate].
  - rewrite negb_true_iff, String.eqb_neq. split.
    + eauto.
    + intros (s' & [= ->] & H). exact H.
Qed.

Lemma get_insert_ne (row : RawRow) k k' v :
  k <> k' -> get (<[k := v]> row) k' = get row k'.
Proof. intros H. unfold get. now rewrite lookup_insert_ne. Qed.

(** The program always resolves to a non-empty string. *)
Lemma resolve_programName_str row :
  exists p, resolve_programName row = str p /\ p <> "".
Proof.
  apply truthy_true_iff. unfold resolve_programName, Js.or.
  destruct (truthy (if truthy (get row "Program") then _ else _)) eqn:E;
    [exact E | reflexivity].
Qed.

End Resolution.

Section ValidateCsvRow.

(** The three outcomes of [validateCsvRow], by the guards it evaluates. *)
Lemma validateCsvRow_missing row :
  truthy (resolve_studentName row) = false
  \/ truthy (resolve_email row) = false ->
  validateCsvRow row = Return (invalid missing_fields).
Proof.
  intros H. unfold validateCsvRow.
  destruct H as [-> | ->]; simpl; [reflexivity|].
  now rewrite orb_true_r.
Qed.

Lemma validateCsvRow_present row n e :
  resolve_studentName row = str n -> n <> "" ->
  resolve_email row = str e -> e <> "" ->
  validateCsvRow row =
  if test_string emailRegex e
  then Return (valid (mkStudent (trim n) (toLowerCase (trim e))
                        (trim (ToString (resolve_programName row)))))
  else Return (invalid ("Invalid email format: " ++ e)).
Proof.
  intros Hn Hn' He He'. unfold validateCsvRow, invalid_email, test.
  rewrite Hn, He. simpl.
  rewrite !eqb_nil_false by assumption. simpl.
  destruct (test_string emailRegex e); simpl; [|reflexivity].
  destruct (resolve_programName_str row) as (p & -> & _). reflexivity.
Qed.

(** No call in [validateCsvRow] throws. *)
Lemma validateCsvRow_returns row :
  exists v : Validation, validateCsvRow row = Return v.
Proof.
  destruct (truthy (resolve_studentName row)) eqn:Tn;
    [|rewrite validateCsvRow_missing by auto; eauto].
  destruct (truthy (resolve_email row)) eqn:Te;
    [|rewrite validateCsvRow_missing by auto; eauto].
  apply truthy_true_iff in Tn as (n & Hn & Hn').
  apply truthy_true_iff in Te as (e & He & He').
  rewrite (validateCsvRow_present row n e) by assumption.
  destruct (test_string emailRegex e); eauto.
Qed.

(** An accepted address is a non-empty string: the pattern admits no
    white space at its head, so trimming leaves the head in place. *)
Lemma trim_head_no_space c s :
  is_white_space c = false -> exists s', trim (String c s) = String c s'.
Proof.
  intros Hc. unfold trim. simpl. rewrite Hc. simpl. rewrite Hc. simpl. eauto.
Qed.

Lemma toLowerCase_nil s : toLowerCase s = "" -> s = "".
Proof. destruct s; [reflexivity | discriminate]. Qed.

Lemma validateCsvRow_email_nonempty row data :
  validateCsvRow row = Return (valid data) -> email data <> "".
Proof.
  intros H.
  destruct (truthy (resolve_studentName row)) eqn:Tn;
    [|rewrite validateCsvRow_missing in H by auto; discriminate].
  destruct (truthy (resolve_email row)) eqn:Te;
    [|rewrite validateCsvRow_missing in H by auto; discriminate].
  apply truthy_true_iff in Tn as (n & Hn & Hn').
  apply truthy_true_iff in Te as (e & He & He').
  rewrite (validateCsvRow_present row n e) in H by assumption.
  destruct (test_string emailRegex e) eqn:T; [|discriminate].
  injection H as <-. simpl.
  apply emailRegex_two_part_shape in T as (l & d1 & d2 & -> & [Hl Hl'] & _).
  destruct l as [|c l]; [congruence|].
  simpl in Hl'. apply andb_true_iff in Hl' as [Hc _].
  unfold not_space_or_at in Hc. apply negb_true_iff, orb_false_iff in Hc.
  destruct Hc as [Hc _]. rewrite append_cons.
  destruct (trim_head_no_space c (l ++ "@" ++ d1 ++ "." ++ d2) Hc) as [s' ->].
  discriminate.
Qed.

End ValidateCsvRow.

Section ValidatorClaims.

(** C4, as the specification states it, fails: a row whose headers are
    [NAME] and [EMAIL] holds a name and an address under headers equal to
    the aliases up to letter case, and [validateCsvRow] resolves neither
    and rejects the row for missing fields. *)
Lemma upper_case_headers_not_resolved :
  columns_ci row_upper_case "Name" = ["Ann Lee"]
  /\ columns_ci row_upper_case "Email" = ["ann@x.com"]
  /\ resolve_studentName row_upper_case = undefined
  /\ resolve_email row_upper_case = undefined
  /\ validateCsvRow row_upper_case = Return (invalid missing_fields).
Proof. vm_compute. repeat split; reflexivity. Qed.

(** C4, amended: the name is the first non-empty cell under the headers
    spelled exactly [Name], [name], [Student Name], [student_name], in
    that order; the address the first non-empty cell under [Email],
    [email]; the program the first non-empty cell under [Program],
    [program], and ["General Program"] when there is none.  A cell under
    any other header, whatever its letter case, changes nothing. *)
Theorem resolve_exact_aliases (row : RawRow) :
  nonempty (resolve_studentName row) = first_nonempty row name_keys
  /\ nonempty (resolve_email row) = first_nonempty row email_keys
  /\ resolve_programName row
     = str (default "General Program" (first_nonempty row program_keys))
  /\ (forall k v, k ∉ (name_keys ++ email_keys ++ program_keys)%list ->
        validateCsvRow (<[k := v]> row) = validateCsvRow row).
Proof.
  repeat split.
  - unfold resolve_studentName, name_keys, Js.or, get. by_cells row.
  - unfold resolve_email, email_keys, Js.or, get. by_cells row.
  - unfold resolve_programName, program_keys, Js.or, get. by_cells row.
  - intros k v Hk.
    unfold name_keys, email_keys, program_keys in Hk. simpl in Hk.
    repeat (apply not_elem_of_cons in Hk as [? Hk]).
    unfold validateCsvRow, resolve_studentName, resolve_email,
      resolve_programName.
    rewrite !get_insert_ne by assumption. reflexivity.
Qed.

(** C5 fails on a name of blanks only: the guard of [validateCsvRow]
    tests the name before it is trimmed, so the row is accepted and the
    recipient's name is the empty string. *)
Theorem validateCsvRow_blank_name :
  resolve_studentName row_blank_name = str "   "
  /\ validateCsvRow row_blank_name
     = Return (valid (mkStudent "" "a@b.com" "General Program")).
Proof. vm_compute. split; reflexivity. Qed.

(** C7: [validateCsvRow] applies its rules in order.  A name or an
    address that is absent or empty gives the missing-fields rejection;
    otherwise an address that has not the two-part shape gives the
    invalid-email rejection; otherwise the row is accepted with the
    trimmed name, the lower-cased trimmed address and the trimmed
    program. *)
Theorem validateCsvRow_rules (row : RawRow) :
  (absent_or_empty (resolve_studentName row)
   \/ absent_or_empty (resolve_email row) ->
   validateCsvRow row = Return (invalid missing_fields))
  /\ (forall n e,
        resolve_studentName row = str n -> n <> "" ->
        resolve_email row = str e -> e <> "" ->
        (~ two_part_shape e ->
         validateCsvRow row
         = Return (invalid ("Invalid email format: " ++ e)))
        /\ (two_part_shape e ->
            validateCsvRow row
            = Return (valid (mkStudent (trim n) (toLowerCase (trim e))
                         (trim (ToString (resolve_programName row))))))).
Proof.
  split.
  - intros H. apply validateCsvRow_missing.
    rewrite !truthy_false_iff. exact H.
  - intros n e Hn Hn' He He'.
    rewrite (validateCsvRow_present row n e) by assumption.
    destruct (test_string emailRegex e) eqn:T.
    + apply emailRegex_two_part_shape in T. split; [contradiction | reflexivity].
    + split; [reflexivity|].
      intros H. apply emailRegex_two_part_shape in H. congruence.
Qed.

(** C8: [validateCsvRow] is total and deterministic.  On every row it
    completes normally (no call in it throws), with an acceptance or a
    rejection, and that completion is the only one it has; it neither
    reads nor changes anything but its argument. *)
Theorem validateCsvRow_total_deterministic (row : RawRow) :
  (exists v : Validation, validateCsvRow row = Return v)
  /\ (forall c1 c2 : Completion Validation,
        validateCsvRow row = c1 -> validateCsvRow row = c2 -> c1 = c2).
Proof.
  split.
  - destruct (validateCsvRow_returns row) as [v Hv]. exists v. exact Hv.
  - intros c1 c2 H1 H2. rewrite <- H1, <- H2. reflexivity.
Qed.

End ValidatorClaims.

(** C4, amended, at work: a cell under [NAME] changes nothing. *)
Lemma resolve_exact_aliases_witness :
  validateCsvRow (<["NAME" := "Zed"]> row_ann) = validateCsvRow row_ann.
Proof.
  apply (proj2 (proj2 (proj2 (resolve_exact_aliases row_ann)))).
  apply (bool_decide_unpack _). vm_compute. exact I.
Defined.

(** C7 at work: one row for each rule. *)
Lemma validateCsvRow_rules_witness :
  validateCsvRow row_no_email = Return (invalid missing_fields)
  /\ validateCsvRow row_not_an_email
     = Return (invalid "Invalid email format: not-an-email")
  /\ validateCsvRow row_bo
     = Return (valid (mkStudent "Bo" "bo@y.org" "Rocq 101")).
Proof.
  split; [|split].
  - apply (proj1 (validateCsvRow_rules row_no_email)).
    right. left. vm_compute. reflexivity.
  - apply (proj1 (proj2 (validateCsvRow_rules row_not_an_email)
                    "Bo" "not-an-email" eq_refl ltac:(discriminate)
                    eq_refl ltac:(discriminate))).
    intros H. apply emailRegex_two_part_shape in H. vm_compute in H.
    discriminate.
  - apply (proj2 (proj2 (validateCsvRow_rules row_bo)
                    "Bo" "Bo@Y.org" eq_refl ltac:(discriminate)
                    eq_refl ltac:(discriminate))).
    exists "Bo", "Y", "org". vm_compute.
    repeat split; discriminate.
Defined.

(* ===================================================================== *)
(** * Properties of the pipeline                                          *)
(* ===================================================================== *)

Section PassFacts.
Variable env : Collaborators.

(** One turn of the loop as a decision tree over the collaborators'
    answers: which entry it yields and what it leaves in the world. *)
Lemma process_student_unfold (s : Student) (w : World) :
  process_student env s w =
  match rendered env s w with
  | Throw e =>
      (mkWorld (S (draws w)) (bucket w) (certificates w) (outbox w),
       Return (inr (entry_failed s e)))
  | Return pdf =>
      match store_answer env w pdf with
      | Some error =>
          (mkWorld (S (draws w)) (bucket w) (certificates w) (outbox w),
           Return (inr (entry_failed s (upload_error env error))))
      | None =>
          match persist_answer env s w with
          | Some e =>
              (mkWorld (S (draws w)) (<[file_at env w := pdf]> (bucket w))
                 (certificates w) (outbox w),
               Return (inr (entry_failed s e)))
          | None =>
              let w' :=
                mkWorld (S (draws w)) (<[file_at env w := pdf]> (bucket w))
                  (certificates w ++ [certificate_at env s w])
                  (outbox w ++ [options_at env s w]) in
              match notify_answer env s w with
              | Promise.Rejected _ e => (w', Return (inr (entry_failed s e)))
              | Promise.Fulfilled _ _ =>
                  (w', Return (inl (entry_processed env s w)))
              end
          end
      end
  end.
Proof.
  unfold process_student, try_catch, issue, mbind, Async_bind, mret,
    Async_ret, uuidv4, new_Date, generateCertificate, lift.
  cbn [draws bucket certificates outbox].
  change ("cert_" ++ uuid_source env (draws w)) with (id_at env w).
  fold (date_at env w). fold (rendered env s w).
  destruct (rendered env s w) as [pdf|e]; [|reflexivity].
  unfold uploadToSupabase. cbn [draws bucket certificates outbox].
  fold (file_at env w). fold (store_answer env w pdf).
  destruct (store_answer env w pdf) as [error|]; [reflexivity|].
  unfold save. cbn [draws bucket certificates outbox].
  fold (url_at env w). fold (certificate_at env s w).
  fold (persist_answer env s w).
  destruct (persist_answer env s w) as [e|]; [reflexivity|].
  unfold sendCertificateEmail. cbn [draws bucket certificates outbox].
  fold (options_at env s w). fold (notify_answer env s w).
  destruct (notify_answer env s w) as [t info|t e]; reflexivity.
Qed.

(** A turn of the loop always ends with an entry: whatever is thrown in
    it is caught. *)
Lemma process_student_returns (s : Student) (w : World) :
  exists outcome,
    process_student env s w = (after_pass env s w, Return outcome).
Proof.
  unfold after_pass. rewrite process_student_unfold.
  destruct (rendered env s w) as [pdf|e]; [|eauto].
  destruct (store_answer env w pdf); [eauto|].
  destruct (persist_answer env s w); [eauto|].
  destruct (notify_answer env s w); eauto.
Qed.

Lemma after_pass_draws (s : Student) (w : World) :
  draws (after_pass env s w) = S (draws w).
Proof.
  unfold after_pass. rewrite process_student_unfold.
  destruct (rendered env s w) as [pdf|e]; [|reflexivity].
  destruct (store_answer env w pdf); [reflexivity|].
  destruct (persist_answer env s w); [reflexivity|].
  destruct (notify_answer env s w); reflexivity.
Qed.

End PassFacts.

Section LoopFacts.
Variable env : Collaborators.

Lemma succeeded_of_app os1 os2 :
  succeeded_of (os1 ++ os2) = (succeeded_of os1 ++ succeeded_of os2)%list.
Proof. apply omap_app. Qed.

Lemma failed_of_app os1 os2 :
  failed_of (os1 ++ os2) = (failed_of os1 ++ failed_of os2)%list.
Proof. apply omap_app. Qed.

Lemma succeeded_of_inl p os : succeeded_of (inl p :: os) = p :: succeeded_of os.
Proof. reflexivity. Qed.

Lemma failed_of_inl p os : failed_of (inl p :: os) = failed_of os.
Proof. reflexivity. Qed.

Lemma outcomes_length (students : list Student) : forall w,
  length (outcomes env students w) = length students.
Proof.
  induction students as [|s rest IH]; intros w; simpl; [reflexivity|].
  destruct (process_student_returns env s w) as [o ->]. simpl.
  now rewrite IH.
Qed.

(** Every entry goes to exactly one of the two lists. *)
Lemma succeeded_failed_length (os : list (Processed + Failed)) :
  length (succeeded_of os) + length (failed_of os) = length os.
Proof.
  induction os as [|[p|f] os IH]; simpl; [reflexivity| |];
    unfold succeeded_of, failed_of in *; simpl; lia.
Qed.

(** The loop appends, in order, the entries of its passes to the two
    lists it was given. *)
Lemma process_students_outcomes (students : list Student) : forall P F w,
  process_students env students P F w =
  (after_passes env students w,
   Return ((P ++ succeeded_of (outcomes env students w))%list,
           (F ++ failed_of (outcomes env students w))%list)).
Proof.
  induction students as [|s rest IH]; intros P F w; simpl.
  - unfold mret, Async_ret. now rewrite !app_nil_r.
  - unfold mbind, Async_bind.
    destruct (process_student_returns env s w) as [o Ho]. rewrite Ho. simpl.
    destruct o as [p|f]; rewrite IH; unfold succeeded_of, failed_of; simpl;
      now rewrite <- app_assoc.
Qed.

Lemma after_passes_app (l1 l2 : list Student) : forall w,
  after_passes env (l1 ++ l2) w = after_passes env l2 (after_passes env l1 w).
Proof. induction l1 as [|s l1 IH]; intros w; simpl; [reflexivity | apply IH]. Qed.

Lemma outcomes_app (l1 l2 : list Student) : forall w,
  outcomes env (l1 ++ l2) w
  = (outcomes env l1 w ++ outcomes env l2 (after_passes env l1 w))%list.
Proof.
  induction l1 as [|s l1 IH]; intros w; simpl; [reflexivity|].
  destruct ((process_student env s w).2); rewrite IH; reflexivity.
Qed.

Lemma after_passes_draws (students : list Student) : forall w,
  draws (after_passes env students w) = draws w + length students.
Proof.
  induction students as [|s rest IH]; intros w; simpl; [lia|].
  rewrite IH, after_pass_draws. lia.
Qed.

(** The loop around one recipient: what came before, the recipient's own
    entry, and what comes after. *)
Lemma process_students_around (before after : list Student) (s : Student)
    (w : World) (o : Processed + Failed) :
  process_student env s (after_passes env before w)
  = (after_pass env s (after_passes env before w), Return o) ->
  process_students env (before ++ s :: after) [] [] w
  = (after_passes env after (after_pass env s (after_passes env before w)),
     Return
       ((succeeded_of (outcomes env before w) ++ succeeded_of [o]
         ++ succeeded_of
              (outcomes env after
                 (after_pass env s (after_passes env before w))))%list,
        (failed_of (outcomes env before w) ++ failed_of [o]
         ++ failed_of
              (outcomes env after
                 (after_pass env s (after_passes env before w))))%list)).
Proof.
  intros Ho. rewrite process_students_outcomes. simpl.
  rewrite after_passes_app, outcomes_app. simpl.
  rewrite Ho. simpl.
  rewrite succeeded_of_app, failed_of_app.
  change (o :: ?l) with ([o] ++ l)%list.
  now rewrite succeeded_of_app, failed_of_app.
Qed.

End LoopFacts.

Section HandlerFacts.
Variable env : Collaborators.

Lemma accepted_or_rejected (row : RawRow) :
  (exists data, validateCsvRow row = Return (valid data))
  \/ (exists error, validateCsvRow row = Return (invalid error)).
Proof.
  destruct (validateCsvRow_returns row) as [[e|d] H]; eauto.
Qed.

(** The ['data'] handler sorts the rows, in order, into recipients and
    row errors, and throws on none. *)
Lemma on_data_sorts (rows : list RawRow) : forall results errors,
  on_data rows results errors
  = Return ((results ++ valid_students rows)%list,
            (errors ++ row_errors rows)%list).
Proof.
  induction rows as [|row rows IH]; intros results errors; simpl.
  - now rewrite !app_nil_r.
  - unfold valid_students, row_errors, accepted, rejected. simpl.
    destruct (accepted_or_rejected row) as [[d ->]|[e ->]]; simpl;
      rewrite IH, <- app_assoc; reflexivity.
Qed.

Lemma sorted_rows_length (rows : list RawRow) :
  length (valid_students rows) + length (row_errors rows) = length rows.
Proof.
  induction rows as [|row rows IH]; simpl; [reflexivity|].
  unfold valid_students, row_errors, accepted, rejected in *. simpl.
  destruct (accepted_or_rejected row) as [[d ->]|[e ->]]; simpl; lia.
Qed.

(** The handler, in terms of the sorted rows and the passes. *)
Lemma upload_csv_unfold (rows : list RawRow) (w : World) :
  upload_csv env rows w =
  match valid_students rows with
  | [] =>
      (w, Return (mkResponse 400
                    (NoValidRecords "No valid records found in CSV"
                       (row_errors rows))))
  | _ :: _ =>
      let os := outcomes env (valid_students rows) w in
      (after_passes env (valid_students rows) w,
       Return (mkResponse 200
                 (Report "CSV processing completed"
                    (mkSummary (length (valid_students rows))
                       (length (succeeded_of os)) (length (failed_of os)))
                    (succeeded_of os) (failed_of os) (row_errors rows))))
  end.
Proof.
  unfold upload_csv, lift, mbind, Async_bind. rewrite on_data_sorts. simpl.
  unfold on_end. destruct (valid_students rows) as [|s rest] eqn:E.
  - reflexivity.
  - cbn [length Nat.eqb]. unfold mbind, Async_bind.
    rewrite process_students_outcomes. reflexivity.
Qed.

End HandlerFacts.

Section HandlerClaims.
Variable env : Collaborators.

(** C10: a submission with no valid row is rejected with status 400 and
    the validation errors of all its rows, and leaves the world as it
    was: no identifier is drawn, nothing is stored, persisted or sent. *)
Theorem no_valid_row_rejected (rows : list RawRow) (w : World) :
  valid_students rows = [] ->
  upload_csv env rows w
  = (w, Return (mkResponse 400
                  (NoValidRecords "No valid records found in CSV"
                     (row_errors rows))))
  /\ length (row_errors rows) = length rows.
Proof.
  intros H. rewrite upload_csv_unfold.
  pose proof (sorted_rows_length rows) as Hrows.
  rewrite H in *. split; [reflexivity | exact Hrows].
Qed.

End HandlerClaims.

Lemma no_valid_row_rejected_witness :
  valid_students [row_upper_case; row_no_email] = []
  /\ upload_csv env_ok [row_upper_case; row_no_email] world0
     = (world0,
        Return (mkResponse 400
                  (NoValidRecords "No valid records found in CSV"
                     [mkRowError row_upper_case missing_fields;
                      mkRowError row_no_email missing_fields])))
  /\ length [mkRowError row_upper_case missing_fields;
             mkRowError row_no_email missing_fields] = 2.
Proof.
  split; [vm_compute; reflexivity|].
  apply (no_valid_row_rejected env_ok [row_upper_case; row_no_email] world0).
  vm_compute. reflexivity.
Defined.

Section IsolationClaims.
Variable env : Collaborators.

(** C2: a recipient whose upload fails is recorded as failed with the
    upload's error, its pass persists no record and hands no message to
    the mail transport, it is not among the succeeded, and the loop goes
    on with the recipients after it, each of which gets its entry. *)
Theorem store_failure_no_record_no_notify
    (before after : list Student) (s : Student) (w : World)
    (pdf : Buffer) (error : StorageError) :
  let w1 := after_passes env before w in
  let w2 := after_pass env s w1 in
  let f := entry_failed s (upload_error env error) in
  rendered env s w1 = Return pdf ->
  store_answer env w1 pdf = Some error ->
  process_student env s w1 = (w2, Return (inr f))
  /\ certificates w2 = certificates w1
  /\ outbox w2 = outbox w1
  /\ bucket w2 = bucket w1
  /\ process_students env (before ++ s :: after) [] [] w
     = (after_passes env after w2,
        Return
          ((succeeded_of (outcomes env before w)
            ++ succeeded_of (outcomes env after w2))%list,
           (failed_of (outcomes env before w)
            ++ f :: failed_of (outcomes env after w2))%list))
  /\ length (outcomes env after w2) = length after.
Proof.
  intros w1 w2 f Hr Hs.
  assert (Hpass : process_student env s w1 = (w2, Return (inr f))).
  { destruct (process_student_returns env s w1) as [o Ho]. fold w2 in Ho.
    rewrite Ho. rewrite process_student_unfold, Hr, Hs in Ho.
    injection Ho as _ <-. reflexivity. }
  assert (Hw2 : w2 = mkWorld (S (draws w1)) (bucket w1) (certificates w1)
                       (outbox w1)).
  { subst w2. unfold after_pass.
    rewrite process_student_unfold, Hr, Hs. reflexivity. }
  split; [exact Hpass|].
  split; [rewrite Hw2; reflexivity|].
  split; [rewrite Hw2; reflexivity|].
  split; [rewrite Hw2; reflexivity|].
  split; [|apply outcomes_length].
  apply (process_students_around env before after s w (inr f) Hpass).
Qed.

(** C1, amended: a recipient whose render, store and persist steps succeed
    and whose notify step fails is recorded as failed, with the error of
    the send, and is not among the succeeded; its record stays in the
    database and its artifact in the bucket, and the loop goes on. *)
Theorem notify_failure_recorded_failed
    (before after : list Student) (s : Student) (w : World)
    (pdf : Buffer) (at_ms : N) (e : Error) :
  let w1 := after_passes env before w in
  let w2 := after_pass env s w1 in
  let f := entry_failed s e in
  rendered env s w1 = Return pdf ->
  store_answer env w1 pdf = None ->
  persist_answer env s w1 = None ->
  notify_answer env s w1 = Promise.Rejected at_ms e ->
  process_student env s w1 = (w2, Return (inr f))
  /\ certificates w2 = (certificates w1 ++ [certificate_at env s w1])%list
  /\ bucket w2 !! file_at env w1 = Some pdf
  /\ outbox w2 = (outbox w1 ++ [options_at env s w1])%list
  /\ process_students env (before ++ s :: after) [] [] w
     = (after_passes env after w2,
        Return
          ((succeeded_of (outcomes env before w)
            ++ succeeded_of (outcomes env after w2))%list,
           (failed_of (outcomes env before w)
            ++ f :: failed_of (outcomes env after w2))%list))
  /\ length (outcomes env after w2) = length after.
Proof.
  intros w1 w2 f Hr Hs Hp Hn.
  assert (Hpass : process_student env s w1 = (w2, Return (inr f))).
  { destruct (process_student_returns env s w1) as [o Ho]. fold w2 in Ho.
    rewrite Ho. rewrite process_student_unfold, Hr, Hs, Hp in Ho.
    cbv zeta in Ho. rewrite Hn in Ho. injection Ho as _ <-. reflexivity. }
  assert (Hw2 : w2 = mkWorld (S (draws w1))
                       (<[file_at env w1 := pdf]> (bucket w1))
                       (certificates w1 ++ [certificate_at env s w1])
                       (outbox w1 ++ [options_at env s w1])).
  { subst w2. unfold after_pass.
    rewrite process_student_unfold, Hr, Hs, Hp. cbv zeta. rewrite Hn.
    reflexivity. }
  split; [exact Hpass|].
  split; [rewrite Hw2; reflexivity|].
  split; [rewrite Hw2; apply lookup_insert_eq|].
  split; [rewrite Hw2; reflexivity|].
  split; [|apply outcomes_length].
  apply (process_students_around env before after s w (inr f) Hpass).
Qed.

(** C6: the send of [src/index.js] is bounded by a timer of 15000 ms.
    The raced send settles within 15000 ms whatever the transport does;
    when the transport has not answered by then it rejects with
    ["Email send timeout"]; in the loop that rejection is caught and
    makes the recipient's entry a failed one; and no submission ends in
    an uncaught exception. *)
Theorem sendCertificateEmail_timeout :
  (forall n options,
     (Promise.settled_at (sendMail_race env n options) <= 15 * 1000)%N)
  /\ (forall n options,
        late 15000 (sendMail env n options) ->
        sendMail_race env n options
        = Promise.Rejected 15000 (new_Error "Email send timeout"))
  /\ (forall s w pdf,
        rendered env s w = Return pdf ->
        store_answer env w pdf = None ->
        persist_answer env s w = None ->
        late 15000 (sendMail env (S (draws w)) (options_at env s w)) ->
        process_student env s w
        = (after_pass env s w,
           Return (inr (mkFailed (studentName s) (email s) "Failed"
                          "Email send timeout"))))
  /\ (forall rows w, exists w' response,
        upload_csv env rows w = (w', Return response)).
Proof.
  assert (Hlate : forall n options,
             late 15000 (sendMail env n options) ->
             sendMail_race env n options
             = Promise.Rejected 15000 (new_Error "Email send timeout")).
  { intros n options H. unfold sendMail_race, Promise.race.
    destruct (sendMail env n options) as [st|]; [|reflexivity].
    simpl in H. unfold Promise.reject_after, email_timeout_ms. simpl.
    destruct (N.leb_spec (Promise.settled_at st) 15000); [lia | reflexivity]. }
  split; [|split; [exact Hlate|split]].
  - intros n options. unfold sendMail_race, Promise.race.
    destruct (sendMail env n options) as [st|];
      unfold Promise.reject_after, email_timeout_ms; simpl; [|lia].
    destruct (N.leb_spec (Promise.settled_at st) 15000); simpl; lia.
  - intros s w pdf Hr Hs Hp Hl.
    destruct (process_student_returns env s w) as [o Ho]. rewrite Ho.
    rewrite process_student_unfold, Hr, Hs, Hp in Ho. cbv zeta in Ho.
    unfold notify_answer in Ho. rewrite (Hlate _ _ Hl) in Ho.
    injection Ho as _ <-. reflexivity.
  - intros rows w. rewrite upload_csv_unfold.
    destruct (valid_students rows); eauto.
Qed.

End IsolationClaims.

(** C2 at work: the store denies Ann's upload and accepts Bo's. *)
Lemma store_failure_witness :
  let w2 := after_pass env_store_denied ann world0 in
  rendered env_store_denied ann world0 = Return "%PDF cert_0 Ann Lee"
  /\ store_answer env_store_denied world0 "%PDF cert_0 Ann Lee"
     = Some access_denied
  /\ process_student env_store_denied ann world0
     = (w2, Return (inr (mkFailed "Ann Lee" "ann@x.com" "Failed" rls_message)))
  /\ certificates w2 = []
  /\ outbox w2 = []
  /\ bucket w2 = ∅
  /\ process_students env_store_denied [ann; bo] [] [] world0
     = (after_passes env_store_denied [bo] w2,
        Return
          ([mkProcessed "Bo" "bo@y.org" "cert_1" "Success"
              (demo_url "Mediseek/cert_1.pdf")],
           [mkFailed "Ann Lee" "ann@x.com" "Failed" rls_message]))
  /\ length (outcomes env_store_denied [bo] w2) = 1.
Proof.
  split; [vm_compute; reflexivity|].
  split; [vm_compute; reflexivity|].
  apply (store_failure_no_record_no_notify env_store_denied [] [bo] ann
           world0 "%PDF cert_0 Ann Lee" access_denied);
    vm_compute; reflexivity.
Defined.

(** C1, as the specification states it, fails: render, store and persist
    succeed for Ann and the mail transport refuses her message; the
    report lists her under [failed] and lists nobody under [processed],
    while her record is in the database. *)
Lemma notify_failure_demotes :
  rendered env_mail_down ann world0 = Return "%PDF cert_0 Ann Lee"
  /\ store_answer env_mail_down world0 "%PDF cert_0 Ann Lee" = None
  /\ persist_answer env_mail_down ann world0 = None
  /\ notify_answer env_mail_down ann world0
     = Promise.Rejected 40 (new_Error "connect ECONNREFUSED")
  /\ (upload_csv env_mail_down [row_ann] world0).2
     = Return
         (mkResponse 200
            (Report "CSV processing completed" (mkSummary 1 0 1) []
               [mkFailed "Ann Lee" "ann@x.com" "Failed" "connect ECONNREFUSED"]
               []))
  /\ cert_certificateId
       <$> certificates (upload_csv env_mail_down [row_ann] world0).1
     = ["cert_0"].
Proof. vm_compute. repeat split; reflexivity. Qed.

(** C1, amended, at work: the mail transport refuses Ann's message. *)
Lemma notify_failure_witness :
  let w2 := after_pass env_mail_down ann world0 in
  notify_answer env_mail_down ann world0
  = Promise.Rejected 40 (new_Error "connect ECONNREFUSED")
  /\ process_student env_mail_down ann world0
     = (w2,
        Return (inr (mkFailed "Ann Lee" "ann@x.com" "Failed"
                       "connect ECONNREFUSED")))
  /\ certificates w2 = [certificate_at env_mail_down ann world0]
  /\ bucket w2 !! "Mediseek/cert_0.pdf" = Some "%PDF cert_0 Ann Lee"
  /\ outbox w2 = [options_at env_mail_down ann world0]
  /\ process_students env_mail_down [ann; bo] [] [] world0
     = (after_passes env_mail_down [bo] w2,
        Return
          ([],
           [mkFailed "Ann Lee" "ann@x.com" "Failed" "connect ECONNREFUSED";
            mkFailed "Bo" "bo@y.org" "Failed" "connect ECONNREFUSED"]))
  /\ length (outcomes env_mail_down [bo] w2) = 1.
Proof.
  split; [vm_compute; reflexivity|].
  apply (notify_failure_recorded_failed env_mail_down [] [bo] ann world0
           "%PDF cert_0 Ann Lee" 40 (new_Error "connect ECONNREFUSED"));
    vm_compute; reflexivity.
Defined.

(** The copy of the server in [src/unnamed/part_000] lacks the timer:
    there the send awaits the transport alone, and stays pending for ever
    when the transport never answers, where the send of [src/index.js]
    rejects after 15000 ms. *)
Lemma sendCertificateEmail_png_unbounded :
  (sendCertificateEmail_png env_mail_hangs "ann@x.com" "Ann Lee" "cert_0"
     world0).2
  = Promise.Pending
  /\ (sendCertificateEmail env_mail_hangs "ann@x.com" "Ann Lee" "cert_0"
        world0).2
     = Throw (new_Error "Email send timeout").
Proof. vm_compute. split; reflexivity. Qed.

(** The timeout of [src/index.js] at work in a submission. *)
Example upload_csv_mail_hangs :
  (upload_csv env_mail_hangs [row_ann; row_bo] world0).2
  = Return
      (mkResponse 200
         (Report "CSV processing completed" (mkSummary 2 0 2) []
            [mkFailed "Ann Lee" "ann@x.com" "Failed" "Email send timeout";
             mkFailed "Bo" "bo@y.org" "Failed" "Email send timeout"]
            [])).
Proof. vm_compute. reflexivity. Qed.

Section AllSucceed.
Variable env : Collaborators.

Lemma steps_succeed_pass (s : Student) (w : World) :
  steps_succeed env s w ->
  (process_student env s w).2 = Return (inl (entry_processed env s w))
  /\ certificates (after_pass env s w)
     = (certificates w ++ [certificate_at env s w])%list.
Proof.
  intros (pdf & t & info & Hr & Hs & Hp & Hn). unfold after_pass.
  rewrite process_student_unfold, Hr, Hs, Hp. cbv zeta. rewrite Hn.
  split; reflexivity.
Qed.

Lemma all_succeed_outcomes (students : list Student) : forall w,
  all_succeed env students w ->
  failed_of (outcomes env students w) = []
  /\ (fun p => (p_studentName p, p_email p))
       <$> succeeded_of (outcomes env students w)
     = (fun s => (studentName s, email s)) <$> students
  /\ p_certificateId <$> succeeded_of (outcomes env students w)
     = id_of env <$> seq (draws w) (length students)
  /\ cert_certificateId <$> certificates (after_passes env students w)
     = ((cert_certificateId <$> certificates w)
        ++ (p_certificateId <$> succeeded_of (outcomes env students w)))%list.
Proof.
  induction students as [|s rest IH]; intros w H.
  - simpl. repeat split. now rewrite app_nil_r.
  - destruct H as [Hs Hrest].
    destruct (steps_succeed_pass s w Hs) as [Ho Hc].
    destruct (IH _ Hrest) as (IHf & IHn & IHi & IHc).
    rewrite after_pass_draws in IHi.
    cbn [outcomes length seq after_passes]. rewrite Ho.
    rewrite succeeded_of_inl, failed_of_inl, !fmap_cons.
    rewrite IHf, IHn, IHc, IHi, Hc, fmap_app, <- app_assoc.
    repeat split.
Qed.

Lemma id_of_inj : Inj (=) (=) (uuid_source env) -> Inj (=) (=) (id_of env).
Proof.
  intros Hinj k1 k2 H. unfold id_of in H.
  apply Hinj. revert H. apply (inj (String.app "cert_")).
Qed.

Lemma ids_fresh (a n : nat) :
  Inj (=) (=) (uuid_source env) ->
  NoDup (id_of env <$> seq a n)
  /\ forall k, k < a -> id_of env k ∉ id_of env <$> seq a n.
Proof.
  intros Hinj. pose proof (id_of_inj Hinj) as Hid. split.
  - apply (NoDup_fmap_2 _). apply NoDup_seq.
  - intros k Hk Hin. apply list_elem_of_fmap in Hin as (k' & E & Hin).
    apply Hid in E. subst k'. apply elem_of_seq in Hin. lia.
Qed.

(** C9: when every step succeeds for every valid recipient, the report
    lists nobody as failed and lists, in the order of the rows, one
    succeeded entry per valid recipient, repeated recipients included.
    The entries carry the identifiers of consecutive draws of the random
    source; when that source does not repeat itself, the identifiers are
    pairwise distinct and distinct from every identifier drawn before.
    The database gains one record per entry. *)
Theorem all_succeed_one_entry_each (rows : list RawRow) (w : World) :
  valid_students rows <> [] ->
  all_succeed env (valid_students rows) w ->
  Inj (=) (=) (uuid_source env) ->
  exists w' processed,
    upload_csv env rows w
    = (w',
       Return (mkResponse 200
                 (Report "CSV processing completed"
                    (mkSummary (length (valid_students rows))
                       (length processed) 0)
                    processed [] (row_errors rows))))
    /\ (fun p => (p_studentName p, p_email p)) <$> processed
       = (fun s => (studentName s, email s)) <$> valid_students rows
    /\ p_certificateId <$> processed
       = (fun k => "cert_" ++ uuid_source env k)
           <$> seq (draws w) (length (valid_students rows))
    /\ NoDup (p_certificateId <$> processed)
    /\ (forall k, k < draws w ->
          "cert_" ++ uuid_source env k ∉ p_certificateId <$> processed)
    /\ cert_certificateId <$> certificates w'
       = ((cert_certificateId <$> certificates w)
          ++ (p_certificateId <$> processed))%list.
Proof.
  intros Hne Hall Hinj. rewrite upload_csv_unfold.
  destruct (all_succeed_outcomes _ _ Hall) as (Hf & Hn & Hi & Hc).
  destruct (ids_fresh (draws w) (length (valid_students rows)) Hinj)
    as [Hnd Hfresh].
  destruct (valid_students rows) as [|s rest] eqn:E; [congruence|].
  cbv zeta. rewrite Hf.
  eexists _, _. split; [reflexivity|].
  rewrite Hi in Hc |- *.
  split; [exact Hn|]. split; [reflexivity|]. split; [exact Hnd|].
  split; [exact Hfresh | exact Hc].
Qed.

End AllSucceed.

(** C9 at work: three valid rows, Ann's twice, and one row in error. *)
Lemma all_succeed_witness :
  exists w' processed,
    upload_csv env_ok [row_ann; row_no_email; row_bo; row_ann] world0
    = (w',
       Return (mkResponse 200
                 (Report "CSV processing completed"
                    (mkSummary 3 (length processed) 0)
                    processed []
                    [mkRowError row_no_email missing_fields])))
    /\ (fun p => (p_studentName p, p_email p)) <$> processed
       = [("Ann Lee", "ann@x.com"); ("Bo", "bo@y.org");
          ("Ann Lee", "ann@x.com")]
    /\ p_certificateId <$> processed = ["cert_0"; "cert_1"; "cert_2"]
    /\ NoDup (p_certificateId <$> processed)
    /\ (forall k, k < 0 ->
          "cert_" ++ pretty k ∉ p_certificateId <$> processed)
    /\ cert_certificateId <$> certificates w'
       = ([] ++ (p_certificateId <$> processed))%list.
Proof.
  apply (all_succeed_one_entry_each env_ok
           [row_ann; row_no_email; row_bo; row_ann] world0).
  - vm_compute. discriminate.
  - vm_compute. repeat split; eexists _, _, _; repeat split; reflexivity.
  - exact pretty_nat_inj.
Defined.

(** C6 at work: a transport that never answers. *)
Lemma sendCertificateEmail_timeout_witness :
  sendMail_race env_mail_hangs 1 (options_at env_mail_hangs ann world0)
  = Promise.Rejected 15000 (new_Error "Email send timeout")
  /\ process_student env_mail_hangs ann world0
     = (after_pass env_mail_hangs ann world0,
        Return (inr (mkFailed "Ann Lee" "ann@x.com" "Failed"
                       "Email send timeout"))).
Proof.
  split.
  - apply (proj1 (proj2 (sendCertificateEmail_timeout env_mail_hangs))).
    vm_compute. exact I.
  - apply (proj1 (proj2 (proj2 (sendCertificateEmail_timeout env_mail_hangs)))
             ann world0 "%PDF cert_0 Ann Lee");
      vm_compute; first [reflexivity | exact I].
Defined.

(* ===================================================================== *)
(** * The scenarios of the specification                                  *)
(* ===================================================================== *)

Example scenario_A :
  validateCsvRow row_ann
  = Return (valid (mkStudent "Ann Lee" "ann@x.com" "General Program")).
Proof. vm_compute. reflexivity. Qed.

Example scenario_B :
  validateCsvRow {[ "Name" := ""; "Email" := "a@b.com" ]}
  = Return (invalid missing_fields).
Proof. vm_compute. reflexivity. Qed.

Example scenario_C :
  validateCsvRow row_not_an_email
  = Return (invalid "Invalid email format: not-an-email").
Proof. vm_compute. reflexivity. Qed.

Example scenario_D :
  (upload_csv env_store_denied [row_ann] world0).2
  = Return
      (mkResponse 200
         (Report "CSV processing completed" (mkSummary 1 0 1) []
            [mkFailed "Ann Lee" "ann@x.com" "Failed" rls_message] []))
  /\ certificates (upload_csv env_store_denied [row_ann] world0).1 = [].
Proof. vm_compute. split; reflexivity. Qed.

Example scenario_E :
  (upload_csv env_ok [row_ann; row_bo; row_ann] world0).2
  = Return
      (mkResponse 200
         (Report "CSV processing completed" (mkSummary 3 3 0)
            [mkProcessed "Ann Lee" "ann@x.com" "cert_0" "Success"
               (demo_url "Mediseek/cert_0.pdf");
             mkProcessed "Bo" "bo@y.org" "cert_1" "Success"
               (demo_url "Mediseek/cert_1.pdf");
             mkProcessed "Ann Lee" "ann@x.com" "cert_2" "Success"
               (demo_url "Mediseek/cert_2.pdf")]
            [] [])).
Proof. vm_compute. reflexivity. Qed.

(* ===================================================================== *)
(** * More properties of the row validator                                *)
(* ===================================================================== *)

Section UnitFacts.

Lemma lower_unit_idem c : lower_unit (lower_unit c) = lower_unit c.
Proof. destruct c as [[] [] [] [] [] [] [] []]; vm_compute; reflexivity. Qed.

Lemma lower_unit_class c : not_space_or_at (lower_unit c) = not_space_or_at c.
Proof. destruct c as [[] [] [] [] [] [] [] []]; vm_compute; reflexivity. Qed.

Lemma not_space_or_at_space c :
  not_space_or_at c = true -> is_white_space c = false.
Proof.
  unfold not_space_or_at. intros H.
  apply negb_true_iff, orb_false_iff in H. tauto.
Qed.

End UnitFacts.

Section TrimFacts.

Lemma all_units_app p s t :
  all_units p (s ++ t) = all_units p s && all_units p t.
Proof.
  induction s as [|c s IH]; [reflexivity|].
  rewrite append_cons. simpl. rewrite IH. apply andb_assoc.
Qed.

Lemma has_space_app s t : has_space (s ++ t) = has_space s || has_space t.
Proof.
  induction s as [|c s IH]; [reflexivity|].
  rewrite append_cons. simpl. rewrite IH. apply orb_assoc.
Qed.

Lemma atom_no_space s : all_units not_space_or_at s = true -> has_space s = false.
Proof.
  induction s as [|c s IH]; simpl; [reflexivity|].
  intros H. apply andb_true_iff in H as [Hc H].
  rewrite (not_space_or_at_space c Hc), IH by exact H. reflexivity.
Qed.

Lemma toLowerCase_app s t :
  toLowerCase (s ++ t) = toLowerCase s ++ toLowerCase t.
Proof.
  induction s as [|c s IH]; [reflexivity|].
  rewrite append_cons. simpl. rewrite IH, append_cons. reflexivity.
Qed.

Lemma toLowerCase_idem s : toLowerCase (toLowerCase s) = toLowerCase s.
Proof.
  induction s as [|c s IH]; simpl; [reflexivity|].
  now rewrite lower_unit_idem, IH.
Qed.

Lemma toLowerCase_atom s : atom s -> atom (toLowerCase s).
Proof.
  intros [Hne H]. split.
  - intros E. apply toLowerCase_nil in E. contradiction.
  - clear Hne. induction s as [|c s IH]; simpl in *; [reflexivity|].
    apply andb_true_iff in H as [Hc H].
    rewrite lower_unit_class, Hc, IH by exact H. reflexivity.
Qed.

(** Lower-casing keeps the two-part shape. *)
Lemma toLowerCase_two_part_shape s :
  two_part_shape s -> two_part_shape (toLowerCase s).
Proof.
  intros (l & d1 & d2 & -> & Hl & Hd1 & Hd2).
  exists (toLowerCase l), (toLowerCase d1), (toLowerCase d2).
  rewrite !toLowerCase_app. auto using toLowerCase_atom.
Qed.

Lemma two_part_shape_no_space s : two_part_shape s -> has_space s = false.
Proof.
  intros (l & d1 & d2 & -> & [_ Hl] & [_ Hd1] & [_ Hd2]).
  rewrite !has_space_app.
  rewrite (atom_no_space l Hl), (atom_no_space d1 Hd1), (atom_no_space d2 Hd2).
  reflexivity.
Qed.

Lemma trimEnd_no_space s : has_space s = false -> trimEnd s = s.
Proof.
  induction s as [|c s IH]; simpl; [reflexivity|].
  intros H. apply orb_false_iff in H as [Hc H].
  rewrite Hc, IH by exact H. reflexivity.
Qed.

(** [trim] changes nothing in a string with no white space. *)
Lemma trim_no_space s : has_space s = false -> trim s = s.
Proof.
  intros H. unfold trim.
  assert (Hs : trimStart s = s).
  { destruct s as [|c s]; [reflexivity|]. simpl in *.
    apply orb_false_iff in H as [-> _]. reflexivity. }
  rewrite Hs. apply trimEnd_no_space. exact H.
Qed.

Lemma trimEnd_idem s : trimEnd (trimEnd s) = trimEnd s.
Proof.
  induction s as [|c s IH]; simpl; [reflexivity|].
  destruct (is_white_space c && String.eqb (trimEnd s) "") eqn:E;
    [reflexivity|].
  simpl. rewrite IH, E. reflexivity.
Qed.

(** What [trimStart] returns does not start with white space. *)
Lemma trimStart_head s :
  trimStart s = ""
  \/ exists c r, trimStart s = String c r /\ is_white_space c = false.
Proof.
  induction s as [|c s IH]; simpl; [auto|].
  destruct (is_white_space c) eqn:E; [exact IH | eauto].
Qed.

Lemma trim_idem s : trim (trim s) = trim s.
Proof.
  unfold trim.
  destruct (trimStart_head s) as [->|(c & r & -> & Hc)]; [reflexivity|].
  simpl. rewrite Hc. simpl. rewrite Hc. simpl.
  rewrite trimEnd_idem, Hc. reflexivity.
Qed.

End TrimFacts.

Section AcceptedRows.

Lemma truthy_str s : s <> "" -> truthy (str s) = true.
Proof. intros H. simpl. now rewrite eqb_nil_false. Qed.

Lemma or_truthy a b : truthy a = true -> a ||| b = a.
Proof. intros H. unfold Js.or. now rewrite H. Qed.

(** What an accepted row holds, by the guards of [validateCsvRow]. *)
Lemma validateCsvRow_valid_inv row data :
  validateCsvRow row = Return (valid data) ->
  exists n e p,
    resolve_studentName row = str n /\ n <> ""
    /\ resolve_email row = str e /\ e <> ""
    /\ resolve_programName row = str p
    /\ test_string emailRegex e = true
    /\ data = mkStudent (trim n) (toLowerCase (trim e)) (trim p).
Proof.
  intros H.
  destruct (truthy (resolve_studentName row)) eqn:Tn;
    [|rewrite validateCsvRow_missing in H by auto; discriminate].
  destruct (truthy (resolve_email row)) eqn:Te;
    [|rewrite validateCsvRow_missing in H by auto; discriminate].
  apply truthy_true_iff in Tn as (n & Hn & Hn').
  apply truthy_true_iff in Te as (e & He & He').
  destruct (resolve_programName_str row) as (p & Hp & _).
  rewrite (validateCsvRow_present row n e) in H by assumption.
  destruct (test_string emailRegex e) eqn:T; [|discriminate].
  rewrite Hp in H. injection H as <-. exists n, e, p. auto 10.
Qed.

(** X1: the address of an accepted row.  The cell it comes from holds no
    white space, so trimming it changes nothing; the recipient's address
    is that cell in lower case, has the two-part shape and is left alone
    by a second lower-casing. *)
Theorem validateCsvRow_accepted_email (row : RawRow) (data : Student) :
  validateCsvRow row = Return (valid data) ->
  exists e,
    resolve_email row = str e
    /\ has_space e = false
    /\ trim e = e
    /\ email data = toLowerCase e
    /\ two_part_shape (email data)
    /\ toLowerCase (email data) = email data.
Proof.
  intros H.
  apply validateCsvRow_valid_inv in H
    as (n & e & p & Hn & Hn' & He & He' & Hp & T & ->).
  apply emailRegex_two_part_shape in T.
  pose proof (two_part_shape_no_space e T) as Hs.
  exists e. simpl. rewrite (trim_no_space e Hs).
  repeat split; auto using toLowerCase_two_part_shape, toLowerCase_idem.
Qed.

(** X2: validating twice.  An accepted recipient whose name and program
    are not empty, written back as a row under [Name], [Email] and
    [Program], is accepted again and unchanged. *)
Theorem validateCsvRow_round_trip (row : RawRow) (data : Student) :
  validateCsvRow row = Return (valid data) ->
  studentName data <> "" ->
  programName data <> "" ->
  validateCsvRow
    {[ "Name" := studentName data; "Email" := email data;
       "Program" := programName data ]}
  = Return (valid data).
Proof.
  intros H Hname Hprogram.
  apply validateCsvRow_valid_inv in H
    as (n & e & p & _ & _ & _ & _ & _ & T & ->).
  apply emailRegex_two_part_shape in T.
  simpl in *. rewrite (trim_no_space e (two_part_shape_no_space e T)).
  pose proof (toLowerCase_two_part_shape e T) as Hshape.
  set (row' := {[ "Name" := trim n; "Email" := toLowerCase e;
                  "Program" := trim p ]} : RawRow).
  assert (Hne : toLowerCase e <> "").
  { destruct Hshape as (l & d1 & d2 & E & [Hl _] & _).
    rewrite E. destruct l; [congruence | discriminate]. }
  assert (Hn : resolve_studentName row' = str (trim n)).
  { unfold resolve_studentName, get, row'. rewrite lookup_insert_eq.
    rewrite !(or_truthy (str (trim n))) by now apply truthy_str.
    reflexivity. }
  assert (Hm : resolve_email row' = str (toLowerCase e)).
  { unfold resolve_email, get, row'.
    rewrite lookup_insert_ne by discriminate. rewrite lookup_insert_eq.
    apply or_truthy. now apply truthy_str. }
  assert (Hp : resolve_programName row' = str (trim p)).
  { unfold resolve_programName, get, row'.
    rewrite !lookup_insert_ne by discriminate. rewrite lookup_singleton_eq.
    rewrite !(or_truthy (str (trim p))) by now apply truthy_str.
    reflexivity. }
  rewrite (validateCsvRow_present row' _ _ Hn Hname Hm Hne), Hp.
  rewrite (proj2 (emailRegex_two_part_shape _) Hshape). simpl.
  rewrite !trim_idem.
  rewrite (trim_no_space _ (two_part_shape_no_space _ Hshape)).
  rewrite toLowerCase_idem. reflexivity.
Qed.

End AcceptedRows.

Lemma validateCsvRow_accepted_email_witness :
  exists e,
    resolve_email row_bo = str e
    /\ has_space e = false
    /\ trim e = e
    /\ email bo = toLowerCase e
    /\ two_part_shape (email bo)
    /\ toLowerCase (email bo) = email bo.
Proof.
  apply (validateCsvRow_accepted_email row_bo bo). vm_compute. reflexivity.
Defined.

Lemma validateCsvRow_round_trip_witness :
  validateCsvRow
    {[ "Name" := "Bo"; "Email" := "bo@y.org"; "Program" := "Rocq 101" ]}
  = Return (valid bo).
Proof.
  apply (validateCsvRow_round_trip row_bo bo);
    [vm_compute; reflexivity | discriminate | discriminate].
Defined.

(* ===================================================================== *)
(** * Properties of the store and the notifier                            *)
(* ===================================================================== *)

Section StoreFacts.
Variable env : Collaborators.

Lemma length_append (s t : string) :
  String.length (s ++ t) = String.length s + String.length t.
Proof.
  induction s as [|c s IH]; [reflexivity|].
  rewrite append_cons. simpl. now rewrite IH.
Qed.

Lemma append_inj_r (s1 s2 t : string) : s1 ++ t = s2 ++ t -> s1 = s2.
Proof.
  revert s2. induction s1 as [|c s1 IH]; intros [|c2 s2] H.
  - reflexivity.
  - rewrite append_nil_l, append_cons in H.
    apply (f_equal String.length) in H.
    simpl in H. rewrite length_append in H. lia.
  - rewrite append_nil_l, append_cons in H.
    apply (f_equal String.length) in H.
    simpl in H. rewrite length_append in H. lia.
  - rewrite !append_cons in H. injection H as -> H. f_equal. now apply IH.
Qed.

(** Different identifiers have different artifact paths. *)
Lemma file_of_inj id1 id2 : file_of id1 = file_of id2 -> id1 = id2.
Proof.
  unfold file_of. intros H.
  apply (inj (String.app "Mediseek/")) in H.
  now apply append_inj_r in H.
Qed.

Lemma is_403 (v : Value) :
  match v with str "403" => true | _ => false end
  = match v with str s => String.eqb s "403" | undefined => false end.
Proof.
  destruct v as [|s]; [reflexivity|].
  destruct (String.eqb_spec s "403") as [->|Hne]; [reflexivity|].
  do 4 (destruct s as [|[[] [] [] [] [] [] [] []] s]; try reflexivity).
  congruence.
Qed.

(** X3: the store is an upsert keyed by the identifier.  Of two accepted
    uploads the second leaves its bytes under its path and returns that
    path's public URL; under the same identifier it replaces the first
    upload, and the bucket is as if only the second had happened; under
    another identifier the first upload stays; no other object, no
    document and no message is touched. *)
Theorem uploadToSupabase_upsert
    (b1 b2 : Buffer) (id1 id2 : string) (w : World) :
  storage_upload env (draws w) (file_of id1) b1 = None ->
  storage_upload env (draws w) (file_of id2) b2 = None ->
  let r1 := uploadToSupabase env b1 id1 w in
  let r2 := uploadToSupabase env b2 id2 r1.1 in
  r1.2 = Return (getPublicUrl env (file_of id1))
  /\ r2.2 = Return (getPublicUrl env (file_of id2))
  /\ bucket r2.1 !! file_of id2 = Some b2
  /\ (id1 <> id2 -> bucket r2.1 !! file_of id1 = Some b1)
  /\ (id1 = id2 -> bucket r2.1 = <[file_of id2 := b2]> (bucket w))
  /\ (forall k, k <> file_of id1 -> k <> file_of id2 ->
        bucket r2.1 !! k = bucket w !! k)
  /\ certificates r2.1 = certificates w
  /\ outbox r2.1 = outbox w
  /\ draws r2.1 = draws w.
Proof.
  intros H1 H2 r1 r2. subst r1 r2. unfold uploadToSupabase.
  fold (file_of id1). rewrite H1. cbn [fst snd draws bucket].
  fold (file_of id2). rewrite H2. cbn [fst snd draws bucket certificates outbox].
  repeat split.
  - apply lookup_insert_eq.
  - intros Hne. rewrite lookup_insert_ne, lookup_insert_eq; [reflexivity|].
    intros E. apply file_of_inj in E. congruence.
  - intros ->. apply insert_insert_eq.
  - intros k Hk1 Hk2. now rewrite !lookup_insert_ne by congruence.
Qed.

(** X4: a refused upload changes nothing and throws an error whose
    message tells the cause.  A storage error whose message holds
    [ENOTFOUND] is reported as a network fault, whatever else it holds;
    otherwise one whose message names the row-level security policy, or
    that has a message and the status ['403'], as an access fault; every
    other one as a plain upload failure, and so is every error with no
    message or an empty one, status ['403'] included. *)
Theorem uploadToSupabase_error_kinds
    (buffer : Buffer) (certificateId : string) (w : World)
    (error : StorageError) :
  storage_upload env (draws w) (file_of certificateId) buffer = Some error ->
  let msg := se_message error in
  let kind := kind_of_message (message (upload_error env error)) in
  uploadToSupabase env buffer certificateId w
  = (w, Throw (upload_error env error))
  /\ (truthy msg = true -> includes (ToString msg) "ENOTFOUND" = true ->
      kind = Some NetworkUnreachable)
  /\ (truthy msg = true -> includes (ToString msg) "ENOTFOUND" = false ->
      includes (ToString msg) "row-level security policy" = true
      \/ se_statusCode error = str "403" ->
      kind = Some AccessDenied)
  /\ (truthy msg = true -> includes (ToString msg) "ENOTFOUND" = false ->
      includes (ToString msg) "row-level security policy" = false ->
      se_statusCode error <> str "403" ->
      kind = Some UploadFailed)
  /\ (truthy msg = false -> kind = Some UploadFailed).
Proof.
  intros H msg kind. split.
  { unfold uploadToSupabase. fold (file_of certificateId). now rewrite H. }
  subst kind. unfold upload_error. fold msg. rewrite is_403.
  repeat split.
  - intros -> ->. reflexivity.
  - intros -> -> Hor. simpl.
    assert (E : includes (ToString msg) "row-level security policy"
                || match se_statusCode error with
                   | str s => String.eqb s "403"
                   | undefined => false
                   end = true).
    { destruct Hor as [->| ->]; [reflexivity | apply orb_true_r]. }
    rewrite E. reflexivity.
  - intros -> -> -> Hs. simpl.
    assert (E : match se_statusCode error with
                | str s => String.eqb s "403"
                | undefined => false
                end = false).
    { destruct (se_statusCode error) as [|s]; [reflexivity|].
      apply String.eqb_neq. congruence. }
    rewrite E. destruct (ToString msg); reflexivity.
  - intros ->. simpl. destruct (ToString msg); reflexivity.
Qed.

End StoreFacts.

Lemma uploadToSupabase_upsert_witness :
  let r1 := uploadToSupabase env_ok "first" "cert_7" world0 in
  let r2 := uploadToSupabase env_ok "second" "cert_7" r1.1 in
  r1.2 = Return (demo_url "Mediseek/cert_7.pdf")
  /\ r2.2 = Return (demo_url "Mediseek/cert_7.pdf")
  /\ bucket r2.1 !! "Mediseek/cert_7.pdf" = Some "second"
  /\ ("cert_7" <> "cert_7" -> bucket r2.1 !! "Mediseek/cert_7.pdf" = Some "first")
  /\ ("cert_7" = "cert_7" ->
      bucket r2.1 = <["Mediseek/cert_7.pdf" := "second"]> (bucket world0))
  /\ (forall k, k <> "Mediseek/cert_7.pdf" -> k <> "Mediseek/cert_7.pdf" ->
        bucket r2.1 !! k = bucket world0 !! k)
  /\ certificates r2.1 = certificates world0
  /\ outbox r2.1 = outbox world0
  /\ draws r2.1 = draws world0.
Proof.
  apply (uploadToSupabase_upsert env_ok "first" "second" "cert_7" "cert_7"
           world0); reflexivity.
Defined.

Lemma uploadToSupabase_error_kinds_witness :
  uploadToSupabase env_store_denied "bytes" "cert_0"
    (mkWorld 1 ∅ [] [])
  = (mkWorld 1 ∅ [] [], Throw (new_Error rls_message))
  /\ kind_of_message rls_message = Some AccessDenied.
Proof.
  pose proof (uploadToSupabase_error_kinds env_store_denied "bytes" "cert_0"
                (mkWorld 1 ∅ [] []) access_denied eq_refl) as H.
  cbv zeta in H. destruct H as (H1 & _ & H2 & _).
  split; [exact H1|].
  apply H2; [reflexivity | reflexivity | right; reflexivity].
Defined.

Section NotifierFacts.
Variable env : Collaborators.

(** X5: what a send does.  It hands the transport exactly one message,
    from [EMAIL_USER] to the recipient's address, under the subject of
    the source (U+1F393, a space, and the text), with the link
    [https://upgradtask-frontend.vercel.app/certificate/<id>], and touches
    nothing else.  When the transport answers within 15000 ms, its answer
    is the outcome: the send returns when the transport fulfils, and
    throws the transport's own error when it rejects. *)
Theorem sendCertificateEmail_in_time
    (email studentName certificateId : string) (w : World) :
  let m :=
    mkMailOptions (EMAIL_USER env) email
      "🎓 Your Certificate has been Generated!" studentName
      ("https://upgradtask-frontend.vercel.app/certificate/" ++ certificateId)
  in
  let r := sendCertificateEmail env email studentName certificateId w in
  outbox r.1 = (outbox w ++ [m])%list
  /\ certificates r.1 = certificates w
  /\ bucket r.1 = bucket w
  /\ draws r.1 = draws w
  /\ (forall at_ms info,
        sendMail env (draws w) m = Promise.Settles (Promise.Fulfilled at_ms info) ->
        (at_ms <= 15000)%N -> r.2 = Return tt)
  /\ (forall at_ms e,
        sendMail env (draws w) m = Promise.Settles (Promise.Rejected at_ms e) ->
        (at_ms <= 15000)%N -> r.2 = Throw e).
Proof.
  intros m r. subst r. unfold sendCertificateEmail.
  change (mailOptions env email studentName certificateId) with m.
  cbn [fst snd outbox certificates bucket draws].
  repeat split.
  - intros t info H Ht. unfold sendMail_race, Promise.race. rewrite H.
    cbn [Promise.settled_at Promise.reject_after].
    unfold email_timeout_ms.
    destruct (N.leb_spec t 15000) as [_|Hgt]; [reflexivity | lia].
  - intros t e H Ht. unfold sendMail_race, Promise.race. rewrite H.
    cbn [Promise.settled_at Promise.reject_after].
    unfold email_timeout_ms.
    destruct (N.leb_spec t 15000) as [_|Hgt]; [reflexivity | lia].
Qed.

End NotifierFacts.

(* ===================================================================== *)
(** * What a batch leaves behind                                          *)
(* ===================================================================== *)

Section LedgerFacts.
Variable env : Collaborators.

Lemma outcomes_cons (s : Student) (rest : list Student) (w : World) :
  exists o,
    process_student env s w = (after_pass env s w, Return o)
    /\ outcomes env (s :: rest) w = o :: outcomes env rest (after_pass env s w).
Proof.
  destruct (process_student_returns env s w) as [o Ho]. exists o.
  split; [exact Ho|]. simpl. rewrite Ho. reflexivity.
Qed.

(** Whom the entry of a pass is about, and which identifier it carries. *)
Lemma outcome_who (s : Student) (w : World) (o : Processed + Failed) :
  process_student env s w = (after_pass env s w, Return o) ->
  match o with
  | inl p => who_processed p = who s /\ p_certificateId p = id_of env (draws w)
  | inr f => who_failed f = who s
  end.
Proof.
  intros H. apply (f_equal snd) in H. cbn [snd] in H.
  rewrite process_student_unfold in H.
  destruct (rendered env s w) as [pdf|e]; cbn [snd] in H;
    [|injection H as <-; reflexivity].
  destruct (store_answer env w pdf); cbn [snd] in H;
    [injection H as <-; reflexivity|].
  destruct (persist_answer env s w); cbn [snd] in H;
    [injection H as <-; reflexivity|].
  cbv zeta in H.
  destruct (notify_answer env s w); cbn [snd] in H; injection H as <-;
    [split|]; reflexivity.
Qed.

(** What one pass adds to the world: at most one document, the message
    for it, and objects in the bucket; a succeeded entry is backed. *)
Lemma pass_ledger (s : Student) (w : World) :
  exists new,
    certificates (after_pass env s w) = (certificates w ++ new)%list
    /\ outbox (after_pass env s w) = (outbox w ++ (mail_of env <$> new))%list
    /\ length new <= 1
    /\ dom (bucket w) ⊆ dom (bucket (after_pass env s w))
    /\ forall p,
         process_student env s w = (after_pass env s w, Return (inl p)) ->
         backed env (after_pass env s w) p.
Proof.
  unfold after_pass. rewrite process_student_unfold.
  destruct (rendered env s w) as [pdf|e].
  2:{ exists []. cbn [fst certificates outbox bucket fmap list_fmap length].
      rewrite !app_nil_r.
      split_and!; [reflexivity | reflexivity | lia | set_solver | intros p [=]]. }
  destruct (store_answer env w pdf).
  { exists []. cbn [fst certificates outbox bucket fmap list_fmap length].
    rewrite !app_nil_r.
    split_and!; [reflexivity | reflexivity | lia | set_solver | intros p [=]]. }
  destruct (persist_answer env s w).
  { exists []. cbn [fst certificates outbox bucket fmap list_fmap length].
    rewrite !app_nil_r.
    split_and!; [reflexivity | reflexivity | lia | | intros p [=]].
    rewrite dom_insert. set_solver. }
  cbv zeta.
  assert (Hb : forall p,
             p = entry_processed env s w ->
             backed env
               (mkWorld (S (draws w)) (<[file_at env w := pdf]> (bucket w))
                  (certificates w ++ [certificate_at env s w])
                  (outbox w ++ [options_at env s w])) p).
  { intros p ->. split; [|split].
    - exists (certificate_at env s w). cbn [certificates].
      split; [set_solver | repeat split].
    - cbn [bucket entry_processed p_certificateId].
      change (file_of (id_at env w)) with (file_at env w).
      rewrite lookup_insert_eq. eauto.
    - reflexivity. }
  destruct (notify_answer env s w); exists [certificate_at env s w];
    cbn [fst certificates outbox bucket fmap list_fmap length];
    (split_and!;
     [reflexivity | reflexivity | lia | rewrite dom_insert; set_solver |]).
  - intros p [= <-]. now apply Hb.
  - intros p [=].
Qed.

(** Being backed survives whatever is added later. *)
Lemma backed_mono (w w' : World) (p : Processed) (new : list Certificate) :
  certificates w' = (certificates w ++ new)%list ->
  dom (bucket w) ⊆ dom (bucket w') ->
  backed env w p -> backed env w' p.
Proof.
  intros Hc Hd ((c & Hin & Hc') & Hb & Hu). split; [|split; [|exact Hu]].
  - exists c. split; [|exact Hc'].
    rewrite Hc. apply elem_of_app. left. exact Hin.
  - apply elem_of_dom. apply Hd. apply elem_of_dom. exact Hb.
Qed.

(** What the passes of a loop add to the world. *)
Lemma passes_ledger (students : list Student) : forall w,
  exists new,
    certificates (after_passes env students w) = (certificates w ++ new)%list
    /\ outbox (after_passes env students w)
       = (outbox w ++ (mail_of env <$> new))%list
    /\ length new <= length students
    /\ dom (bucket w) ⊆ dom (bucket (after_passes env students w))
    /\ Forall (backed env (after_passes env students w))
         (succeeded_of (outcomes env students w)).
Proof.
  induction students as [|s rest IH]; intros w.
  - exists []. simpl. rewrite !app_nil_r.
    split_and!; [reflexivity | reflexivity | lia | reflexivity | constructor].
  - destruct (pass_ledger s w) as (new1 & Hc1 & Ho1 & Hl1 & Hd1 & Hb1).
    destruct (IH (after_pass env s w)) as (new2 & Hc2 & Ho2 & Hl2 & Hd2 & Hb2).
    destruct (outcomes_cons s rest w) as (o & Ho & ->).
    exists (new1 ++ new2)%list. cbn [after_passes].
    split_and!.
    + rewrite Hc2, Hc1, app_assoc. reflexivity.
    + rewrite Ho2, Ho1, fmap_app, app_assoc. reflexivity.
    + rewrite length_app. simpl. lia.
    + etransitivity; [exact Hd1 | exact Hd2].
    + destruct o as [p|f]; [|exact Hb2].
      rewrite succeeded_of_inl. constructor; [|exact Hb2].
      apply (backed_mono (after_pass env s w) _ p new2).
      * exact Hc2.
      * exact Hd2.
      * apply Hb1. exact Ho.
Qed.

(** The entries of a loop in the order of its recipients. *)
Lemma outcomes_sublists (students : list Student) : forall w,
  who_processed <$> succeeded_of (outcomes env students w)
    `sublist_of` who <$> students
  /\ who_failed <$> failed_of (outcomes env students w)
    `sublist_of` who <$> students
  /\ p_certificateId <$> succeeded_of (outcomes env students w)
    `sublist_of` id_of env <$> seq (draws w) (length students).
Proof.
  induction students as [|s rest IH]; intros w.
  - simpl. repeat split; constructor.
  - destruct (IH (after_pass env s w)) as (IH1 & IH2 & IH3).
    rewrite after_pass_draws in IH3.
    destruct (outcomes_cons s rest w) as (o & Ho & ->).
    apply outcome_who in Ho. cbn [length seq]. rewrite !fmap_cons.
    destruct o as [p|f].
    + destruct Ho as [Hw Hid].
      rewrite succeeded_of_inl, failed_of_inl, fmap_cons, Hw.
      rewrite fmap_cons, Hid.
      repeat split;
        [apply sublist_skip | apply sublist_cons | apply sublist_skip];
        assumption.
    + change (succeeded_of (inr f :: ?l)) with (succeeded_of l).
      change (failed_of (inr f :: ?l)) with (f :: failed_of l).
      rewrite fmap_cons, Ho.
      repeat split;
        [apply sublist_cons | apply sublist_skip | apply sublist_cons];
        assumption.
Qed.

(** The world a submission leaves is the world after its passes. *)
Lemma upload_csv_world (rows : list RawRow) (w : World) :
  (upload_csv env rows w).1 = after_passes env (valid_students rows) w.
Proof.
  rewrite upload_csv_unfold.
  destruct (valid_students rows); reflexivity.
Qed.

(** The report of a submission lists the entries of its passes. *)
Lemma upload_csv_report (rows : list RawRow) (w w' : World)
    (msg : string) (summary : Summary) (processed : list Processed)
    (failed : list Failed) (errors : list RowError) :
  upload_csv env rows w
  = (w', Return (mkResponse 200 (Report msg summary processed failed errors))) ->
  w' = after_passes env (valid_students rows) w
  /\ processed = succeeded_of (outcomes env (valid_students rows) w)
  /\ failed = failed_of (outcomes env (valid_students rows) w).
Proof.
  rewrite upload_csv_unfold.
  destruct (valid_students rows); [discriminate|].
  cbv zeta. intros [= <- _ _ <- <- _]. auto.
Qed.

End LedgerFacts.

Section PartitionClaim.
Variable env : Collaborators.

Lemma outcomes_who (students : list Student) : forall w,
  who_outcome <$> outcomes env students w = who <$> students.
Proof.
  induction students as [|s rest IH]; intros w; [reflexivity|].
  destruct (outcomes_cons env s rest w) as (o & Ho & ->).
  apply outcome_who in Ho. rewrite !fmap_cons, IH. f_equal.
  destruct o as [p|f]; [destruct Ho as [Ho _]|]; exact Ho.
Qed.

Lemma rows_sorted_once (rows : list RawRow) : Forall sorted_once rows.
Proof with eauto.
  apply Forall_forall. intros row _. unfold sorted_once, accepted, rejected.
  destruct (accepted_or_rejected row) as [[d ->]|[e ->]]...
Qed.

Lemma all_rejected (rows : list RawRow) :
  valid_students rows = [] -> re_row <$> row_errors rows = rows.
Proof.
  induction rows as [|row rows IH]; [reflexivity|].
  unfold valid_students, row_errors, accepted, rejected in *. simpl.
  destruct (accepted_or_rejected row) as [[d ->]|[e ->]]; simpl;
    [discriminate|].
  intros H. f_equal. apply IH. exact H.
Qed.

(** C3: every submission is answered, and the answer accounts for every
    row, once.  Each row of the file is sorted by [validateCsvRow] into
    the valid recipients or into the row errors, never both and never
    neither; the answer carries the row errors, in the order of the file.
    In the report every valid recipient, in the order of the file, has
    exactly one entry, which is a succeeded one or a failed one and names
    that recipient; so the succeeded and the failed add up to the valid
    rows, and the valid rows and the row errors add up to the rows of the
    file.  When the submission is rejected there is no valid row, and
    the validation errors are the rows of the file, one for one. *)
Theorem batch_outcome_counts (rows : list RawRow) (w : World) :
  exists w' response,
    upload_csv env rows w = (w', Return response)
    /\ Forall sorted_once rows
    /\ valid_students rows = omap accepted rows
    /\ match body response with
       | NoValidRecords _ validationErrors =>
           length (valid_students rows) = 0
           /\ length validationErrors = length rows
           /\ validationErrors = omap rejected rows
           /\ re_row <$> validationErrors = rows
       | Report _ summary processed failed csvValidationErrors =>
           totalRecords summary = length (valid_students rows)
           /\ length processed + length failed = totalRecords summary
           /\ totalRecords summary + length csvValidationErrors = length rows
           /\ successfullyProcessed summary = length processed
           /\ failed_count summary = length failed
           /\ csvValidationErrors = omap rejected rows
           /\ exists entries : list (Processed + Failed),
                who_outcome <$> entries = who <$> valid_students rows
                /\ processed = succeeded_of entries
                /\ failed = failed_of entries
       end.
Proof.
  rewrite upload_csv_unfold.
  pose proof (sorted_rows_length rows) as Hrows.
  pose proof (all_rejected rows) as Hall.
  pose proof (outcomes_who (valid_students rows) w) as Hwho.
  destruct (valid_students rows) as [|s rest] eqn:E.
  - eexists _, _. split; [reflexivity|].
    split; [apply rows_sorted_once|]. split; [symmetry; exact E|].
    simpl. simpl in Hrows. auto.
  - eexists _, _. split; [reflexivity|].
    split; [apply rows_sorted_once|]. split; [symmetry; exact E|].
    cbn [body totalRecords successfullyProcessed failed_count].
    rewrite succeeded_failed_length, outcomes_length.
    split_and!; try reflexivity; try exact Hrows.
    exists (outcomes env (s :: rest) w). auto.
Qed.

End PartitionClaim.

(** C3 at work: a file of three rows, one rejected, and a store that
    denies the first upload. *)
Example batch_outcome_partition :
  upload_csv env_store_denied [row_no_email; row_ann; row_bo] world0
  = ((upload_csv env_store_denied [row_no_email; row_ann; row_bo] world0).1,
     Return
       (mkResponse 200
          (Report "CSV processing completed" (mkSummary 2 1 1)
             [mkProcessed "Bo" "bo@y.org" "cert_1" "Success"
                (demo_url "Mediseek/cert_1.pdf")]
             [mkFailed "Ann Lee" "ann@x.com" "Failed" rls_message]
             [mkRowError row_no_email missing_fields]))).
Proof. vm_compute. reflexivity. Qed.

Section LedgerClaims.
Variable env : Collaborators.

(** X6: persist before notify.  Whatever fails in a submission, the
    documents that were in the database stay, in place, and the new ones
    come after them; the messages handed to the mail transport are
    exactly the messages for the new documents, one each, in the same
    order, after the earlier ones; no object leaves the bucket; and one
    identifier is drawn per valid row. *)
Theorem upload_csv_persist_before_notify (rows : list RawRow) (w : World) :
  let w' := (upload_csv env rows w).1 in
  exists new : list Certificate,
    certificates w' = (certificates w ++ new)%list
    /\ outbox w' = (outbox w ++ (mail_of env <$> new))%list
    /\ length new <= length (valid_students rows)
    /\ dom (bucket w) ⊆ dom (bucket w')
    /\ draws w' = draws w + length (valid_students rows).
Proof.
  intros w'. subst w'. rewrite upload_csv_world.
  destruct (passes_ledger env (valid_students rows) w)
    as (new & Hc & Ho & Hl & Hd & _).
  exists new. rewrite after_passes_draws. auto.
Qed.

(** X7: every succeeded entry of a report is backed.  The database holds
    a PDF document with the entry's identifier, name, address and URL,
    the bucket holds an object under the identifier's path, and the URL
    is the public URL of that path. *)
Theorem upload_csv_processed_backed (rows : list RawRow) (w w' : World)
    (msg : string) (summary : Summary) (processed : list Processed)
    (failed : list Failed) (errors : list RowError) :
  upload_csv env rows w
  = (w', Return (mkResponse 200 (Report msg summary processed failed errors))) ->
  Forall (backed env w') processed.
Proof.
  intros H. apply upload_csv_report in H as (-> & -> & _).
  destruct (passes_ledger env (valid_students rows) w)
    as (new & _ & _ & _ & _ & Hb).
  exact Hb.
Qed.

(** X8: identifiers in a report with failures.  When the random source
    does not repeat itself, the succeeded entries of every report carry
    pairwise distinct identifiers, each the identifier of a draw made
    during the submission and none the identifier of an earlier draw,
    whichever recipients fail. *)
Theorem upload_csv_ids_distinct (rows : list RawRow) (w w' : World)
    (msg : string) (summary : Summary) (processed : list Processed)
    (failed : list Failed) (errors : list RowError) :
  Inj (=) (=) (uuid_source env) ->
  upload_csv env rows w
  = (w', Return (mkResponse 200 (Report msg summary processed failed errors))) ->
  NoDup (p_certificateId <$> processed)
  /\ (forall p, p ∈ processed ->
        exists k, draws w <= k < draws w'
                  /\ p_certificateId p = "cert_" ++ uuid_source env k)
  /\ (forall k, k < draws w ->
        "cert_" ++ uuid_source env k ∉ p_certificateId <$> processed).
Proof.
  intros Hinj H. apply upload_csv_report in H as (-> & -> & _).
  destruct (outcomes_sublists env (valid_students rows) w) as (_ & _ & Hs).
  destruct (ids_fresh env (draws w) (length (valid_students rows)) Hinj)
    as [Hnd Hfresh].
  rewrite after_passes_draws. split_and!.
  - exact (sublist_NoDup _ _ Hnd Hs).
  - intros p Hp.
    assert (Hin : p_certificateId p
                  ∈ id_of env <$> seq (draws w) (length (valid_students rows))).
    { apply (sublist_subseteq _ _ Hs). apply list_elem_of_fmap. eauto. }
    apply list_elem_of_fmap in Hin as (k & E & Hk).
    apply elem_of_seq in Hk. exists k. split; [lia | exact E].
  - intros k Hk Hin. apply (Hfresh k Hk).
    apply (sublist_subseteq _ _ Hs). exact Hin.
Qed.

(** X9: the order of a report with failures.  In every report the
    succeeded entries, and the failed entries, name their recipients in
    the order of the valid rows: each list is the list of valid
    recipients with some left out. *)
Theorem upload_csv_row_order (rows : list RawRow) (w w' : World)
    (msg : string) (summary : Summary) (processed : list Processed)
    (failed : list Failed) (errors : list RowError) :
  upload_csv env rows w
  = (w', Return (mkResponse 200 (Report msg summary processed failed errors))) ->
  (who_processed <$> processed) `sublist_of` (who <$> valid_students rows)
  /\ (who_failed <$> failed) `sublist_of` (who <$> valid_students rows).
Proof.
  intros H. apply upload_csv_report in H as (_ & -> & ->).
  destruct (outcomes_sublists env (valid_students rows) w) as (H1 & H2 & _).
  auto.
Qed.

(** X10: a failed render is isolated.  The recipient is recorded as
    failed with the renderer's message; nothing is uploaded, persisted or
    sent; the identifier drawn for the pass is spent. *)
Theorem render_failure_isolated (s : Student) (w : World) (e : Error) :
  rendered env s w = Throw e ->
  let w' := after_pass env s w in
  process_student env s w
  = (w', Return (inr (mkFailed (studentName s) (email s) "Failed" (message e))))
  /\ bucket w' = bucket w
  /\ certificates w' = certificates w
  /\ outbox w' = outbox w
  /\ draws w' = S (draws w).
Proof.
  intros H w'. subst w'. unfold after_pass.
  rewrite process_student_unfold, H. repeat split.
Qed.

(** X11: a failed save leaves the artifact and nothing else.  The
    recipient is recorded as failed with the database's message; the
    uploaded artifact stays in the bucket under the identifier's path; no
    document is added and no message is handed to the mail transport. *)
Theorem persist_failure_orphans_artifact
    (s : Student) (w : World) (pdf : Buffer) (e : Error) :
  rendered env s w = Return pdf ->
  store_answer env w pdf = None ->
  persist_answer env s w = Some e ->
  let w' := after_pass env s w in
  process_student env s w
  = (w', Return (inr (mkFailed (studentName s) (email s) "Failed" (message e))))
  /\ bucket w' = <[file_of (id_of env (draws w)) := pdf]> (bucket w)
  /\ certificates w' = certificates w
  /\ outbox w' = outbox w.
Proof.
  intros Hr Hs Hp w'. subst w'. unfold after_pass.
  rewrite process_student_unfold, Hr, Hs, Hp. repeat split.
Qed.

End LedgerClaims.

Lemma upload_csv_processed_backed_witness :
  Forall (backed env_store_denied
            (upload_csv env_store_denied [row_ann; row_bo] world0).1)
    [mkProcessed "Bo" "bo@y.org" "cert_1" "Success"
       (demo_url "Mediseek/cert_1.pdf")].
Proof.
  apply (upload_csv_processed_backed env_store_denied [row_ann; row_bo]
           world0 (upload_csv env_store_denied [row_ann; row_bo] world0).1
           "CSV processing completed" (mkSummary 2 1 1)
           [mkProcessed "Bo" "bo@y.org" "cert_1" "Success"
              (demo_url "Mediseek/cert_1.pdf")]
           [mkFailed "Ann Lee" "ann@x.com" "Failed" rls_message] []).
  vm_compute. reflexivity.
Defined.

Lemma upload_csv_ids_distinct_witness :
  NoDup ["cert_1"; "cert_2"]
  /\ (forall p,
        p ∈ [mkProcessed "Bo" "bo@y.org" "cert_1" "Success"
               (demo_url "Mediseek/cert_1.pdf");
             mkProcessed "Ann Lee" "ann@x.com" "cert_2" "Success"
               (demo_url "Mediseek/cert_2.pdf")] ->
        exists k,
          0 <= k < draws (upload_csv env_store_denied
                            [row_ann; row_bo; row_ann] world0).1
          /\ p_certificateId p = "cert_" ++ pretty k)
  /\ (forall k, k < 0 -> "cert_" ++ pretty k ∉ ["cert_1"; "cert_2"]).
Proof.
  apply (upload_csv_ids_distinct env_store_denied [row_ann; row_bo; row_ann]
           world0
           (upload_csv env_store_denied [row_ann; row_bo; row_ann] world0).1
           "CSV processing completed" (mkSummary 3 2 1)
           [mkProcessed "Bo" "bo@y.org" "cert_1" "Success"
              (demo_url "Mediseek/cert_1.pdf");
            mkProcessed "Ann Lee" "ann@x.com" "cert_2" "Success"
              (demo_url "Mediseek/cert_2.pdf")]
           [mkFailed "Ann Lee" "ann@x.com" "Failed" rls_message] []).
  - exact pretty_nat_inj.
  - vm_compute. reflexivity.
Defined.

Lemma upload_csv_row_order_witness :
  [("Bo", "bo@y.org"); ("Ann Lee", "ann@x.com")]
    `sublist_of` [("Ann Lee", "ann@x.com"); ("Bo", "bo@y.org");
                  ("Ann Lee", "ann@x.com")]
  /\ [("Ann Lee", "ann@x.com")]
    `sublist_of` [("Ann Lee", "ann@x.com"); ("Bo", "bo@y.org");
                  ("Ann Lee", "ann@x.com")].
Proof.
  apply (upload_csv_row_order env_store_denied [row_ann; row_bo; row_ann]
           world0
           (upload_csv env_store_denied [row_ann; row_bo; row_ann] world0).1
           "CSV processing completed" (mkSummary 3 2 1)
           [mkProcessed "Bo" "bo@y.org" "cert_1" "Success"
              (demo_url "Mediseek/cert_1.pdf");
            mkProcessed "Ann Lee" "ann@x.com" "cert_2" "Success"
              (demo_url "Mediseek/cert_2.pdf")]
           [mkFailed "Ann Lee" "ann@x.com" "Failed" rls_message] []).
  vm_compute. reflexivity.
Defined.

Lemma render_failure_isolated_witness :
  let w' := after_pass env_render_fails ann world0 in
  process_student env_render_fails ann world0
  = (w', Return (inr (mkFailed "Ann Lee" "ann@x.com" "Failed" "unknown font")))
  /\ bucket w' = ∅
  /\ certificates w' = []
  /\ outbox w' = []
  /\ draws w' = 1.
Proof.
  apply (render_failure_isolated env_render_fails ann world0
           (new_Error "unknown font")).
  reflexivity.
Defined.

Lemma persist_failure_orphans_artifact_witness :
  let w' := after_pass env_db_down ann world0 in
  process_student env_db_down ann world0
  = (w', Return (inr (mkFailed "Ann Lee" "ann@x.com" "Failed"
                        "E11000 duplicate key error")))
  /\ bucket w' = <["Mediseek/cert_0.pdf" := "%PDF cert_0 Ann Lee"]> ∅
  /\ certificates w' = []
  /\ outbox w' = [].
Proof.
  apply (persist_failure_orphans_artifact env_db_down ann world0
           "%PDF cert_0 Ann Lee" (new_Error "E11000 duplicate key error"));
    vm_compute; reflexivity.
Defined.

(* ===================================================================== *)
(** * Properties of the routes and of the start-up checks                 *)
(* ===================================================================== *)

Section SubstringFacts.





(** [startsWith] holds exactly of the strings that start with [t]. *)
Lemma startsWith_spec (t : string) : forall s,
  startsWith s t = true <-> exists rest, s = t ++ rest.
Proof.
  unfold startsWith. induction t as [|c t IH]; intros s.
  - split; [exists s; reflexivity | destruct s; reflexivity].
  - destruct s as [|c' s]; simpl.
    + split; [discriminate | intros [r H]; rewrite append_cons in H; discriminate].
    + destruct (ascii_dec c c') as [->|Hne].
      * rewrite IH. split; intros [r H]; exists r.
        -- rewrite append_cons. now rewrite H.
        -- rewrite append_cons in H. now injection H.
      * split; [discriminate|].
        intros [r H]. rewrite append_cons in H. injection H as H _. congruence.
Qed.

End SubstringFacts.

Section RouteClaims.
Variable env : Collaborators.


Lemma findOne_unique (docs : list Certificate) (c : Certificate) :
  NoDup (cert_certificateId <$> docs) ->
  c ∈ docs ->
  findOne docs (cert_certificateId c) = Some c.
Proof.
  unfold findOne. induction docs as [|d docs IH]; intros Hnd Hin.
  - apply elem_of_nil in Hin. contradiction.
  - rewrite fmap_cons in Hnd. apply NoDup_cons in Hnd as [Hd Hnd]. simpl.
    apply elem_of_cons in Hin as [->|Hin].
    + now rewrite String.eqb_refl.
    + destruct (String.eqb_spec (cert_certificateId d) (cert_certificateId c))
        as [E|_]; [|now apply IH].
      exfalso. apply Hd. rewrite E. apply list_elem_of_fmap. eauto.
Qed.

Lemma findOne_Some (docs : list Certificate) (id : string) (c : Certificate) :
  findOne docs id = Some c -> c ∈ docs /\ cert_certificateId c = id.
Proof.
  unfold findOne. intros H. apply List.find_some in H as [Hin E].
  apply String.eqb_eq in E. split; [now apply list_elem_of_In | exact E].
Qed.

Lemma findOne_None (docs : list Certificate) (id : string) :
  findOne docs id = None <-> id ∉ cert_certificateId <$> docs.
Proof.
  unfold findOne. induction docs as [|d docs IH].
  - split; [intros _; apply not_elem_of_nil | reflexivity].
  - rewrite fmap_cons, not_elem_of_cons. cbn [List.find].
    destruct (String.eqb_spec (cert_certificateId d) id) as [E|Hne].
    + split; [discriminate | intros [H _]; congruence].
    + rewrite IH. split; [intros H; split; [congruence | exact H] | tauto].
Qed.

Lemma or_field_nil a b : or_field a b = "" <-> a = "" /\ b = "".
Proof.
  unfold or_field. destruct (String.eqb_spec a "") as [->|Hne]; tauto.
Qed.

(** X13: issue, then look up.  While the identifiers of the stored
    documents are pairwise distinct, looking up the identifier of a
    succeeded entry of a report, in the world the submission left, is
    answered with the entry's name, address and URL and the PDF file
    type. *)
Theorem get_certificate_after_issue (rows : list RawRow) (w w' : World)
    (msg : string) (summary : Summary) (processed : list Processed)
    (failed : list Failed) (errors : list RowError) (p : Processed) :
  upload_csv env rows w
  = (w', Return (mkResponse 200 (Report msg summary processed failed errors))) ->
  NoDup (cert_certificateId <$> certificates w') ->
  p ∈ processed ->
  exists program date,
    get_certificate None (p_certificateId p) w'
    = served
        (mkCertificateData (p_certificateId p) (p_studentName p) (p_email p)
           program date (p_certificateUrl p) "application/pdf"
           (p_certificateUrl p)).
Proof.
  intros H Hnd Hp.
  pose proof (upload_csv_report env _ _ _ _ _ _ _ _ H) as (-> & -> & _).
  destruct (passes_ledger env (valid_students rows) w)
    as (new & _ & _ & _ & _ & Hb).
  rewrite Forall_forall in Hb.
  destruct (Hb p Hp) as ((c & Hin & Hid & Hname & Hmail & Hurl & Himg & Hty) & _).
  destruct (outcomes_sublists env (valid_students rows) w) as (_ & _ & Hs).
  assert (Hne : p_certificateId p <> "").
  { assert (Hi : p_certificateId p
                 ∈ id_of env <$> seq (draws w) (length (valid_students rows))).
    { apply (sublist_subseteq _ _ Hs). apply list_elem_of_fmap. eauto. }
    apply list_elem_of_fmap in Hi as (k & -> & _). discriminate. }
  exists (cert_programName c), (cert_dateOfIssue c). unfold get_certificate.
  rewrite (eqb_nil_false _ Hne), <- Hid, (findOne_unique _ c Hnd Hin).
  simpl. rewrite Hname, Hmail, Hurl, Himg, Hty. unfold or_field.
  destruct (String.eqb (p_certificateUrl p) ""); reflexivity.
Qed.

(** X14: what [GET /api/certificate/:certificateId] answers.  An empty
    identifier is refused with 400 and a failed query with 500; otherwise
    the answer is 404 exactly when no stored document has the
    identifier.  Data that is served carries the identifier asked for and
    the name and address of a stored document with it, never an empty
    file type, and its two URLs are empty together. *)
Theorem get_certificate_answers
    (fault : option Error) (certificateId : string) (w : World) :
  (certificateId = "" ->
   get_certificate fault certificateId w
   = not_served 400 "Certificate ID is required")
  /\ (certificateId <> "" -> forall e, fault = Some e ->
      get_certificate fault certificateId w = not_served 500 (message e))
  /\ (certificateId <> "" -> fault = None ->
      (certificateId ∉ cert_certificateId <$> certificates w
       <-> get_certificate fault certificateId w
           = not_served 404 "Certificate not found"))
  /\ (forall data,
        get_certificate fault certificateId w = served data ->
        d_certificateId data = certificateId
        /\ d_certificateFileType data <> ""
        /\ (d_certificateUrl data = "" <-> d_certificateImageUrl data = "")
        /\ exists c, c ∈ certificates w
             /\ cert_certificateId c = certificateId
             /\ cert_studentName c = d_studentName data
             /\ cert_email c = d_email data).
Proof.
  unfold get_certificate. split_and!.
  - intros ->. reflexivity.
  - intros Hne e ->. now rewrite (eqb_nil_false _ Hne).
  - intros Hne ->. rewrite (eqb_nil_false _ Hne), <- findOne_None.
    destruct (findOne (certificates w) certificateId);
      split; congruence.
  - intros data H.
    destruct (String.eqb certificateId ""); [discriminate|].
    destruct fault; [discriminate|].
    destruct (findOne (certificates w) certificateId) as [c|] eqn:Ef;
      [|discriminate].
    apply findOne_Some in Ef as [Hin Hid]. injection H as <-. simpl.
    split_and!.
    + exact Hid.
    + intros E. apply or_field_nil in E as [_ E]. discriminate.
    + rewrite !or_field_nil. tauto.
    + exists c. auto.
Qed.

End RouteClaims.

Lemma get_certificate_after_issue_witness :
  exists program date,
    get_certificate None "cert_1"
      (upload_csv env_ok [row_ann; row_bo] world0).1
    = served
        (mkCertificateData "cert_1" "Bo" "bo@y.org" program date
           (demo_url "Mediseek/cert_1.pdf") "application/pdf"
           (demo_url "Mediseek/cert_1.pdf")).
Proof.
  apply (get_certificate_after_issue env_ok [row_ann; row_bo] world0
           (upload_csv env_ok [row_ann; row_bo] world0).1
           "CSV processing completed" (mkSummary 2 2 0)
           [mkProcessed "Ann Lee" "ann@x.com" "cert_0" "Success"
              (demo_url "Mediseek/cert_0.pdf");
            mkProcessed "Bo" "bo@y.org" "cert_1" "Success"
              (demo_url "Mediseek/cert_1.pdf")]
           [] []
           (mkProcessed "Bo" "bo@y.org" "cert_1" "Success"
              (demo_url "Mediseek/cert_1.pdf"))).
  - vm_compute. reflexivity.
  - apply (bool_decide_unpack _). vm_compute. exact I.
  - apply list_elem_of_further, list_elem_of_here.
Defined.

Section StartupClaims.

Lemma filter_nil {A : Type} (f : A -> bool) (l : list A) :
  List.filter f l = [] <-> forall x, x ∈ l -> f x = false.
Proof.
  induction l as [|a l IH]; simpl.
  - split; [intros _ x Hx; apply elem_of_nil in Hx; contradiction | reflexivity].
  - destruct (f a) eqn:Ea.
    + split; [discriminate|]. intros H.
      rewrite (H a) in Ea by apply list_elem_of_here. discriminate.
    + rewrite IH. split.
      * intros H x Hx. apply elem_of_cons in Hx as [->|Hx]; auto.
      * intros H x Hx. apply H. now apply list_elem_of_further.
Qed.

Lemma get_nonempty (m : gmap string string) (k s : string) :
  nonempty (get m k) = Some s <-> m !! k = Some s /\ s <> "".
Proof.
  unfold get. destruct (m !! k) as [t|]; simpl.
  - destruct (String.eqb_spec t "") as [->|Hne]; split.
    + discriminate.
    + intros [[= <-] H]. congruence.
    + intros [= <-]. auto.
    + intros [[= <-] _]. reflexivity.
  - split; [discriminate | intros [[=] _]].
Qed.

Lemma truthy_get (m : gmap string string) (k : string) :
  truthy (get m k) = true <-> exists s, m !! k = Some s /\ s <> "".
Proof.
  rewrite truthy_true_iff. unfold get. destruct (m !! k) as [t|].
  - split; intros (s & [= <-] & H); eauto.
  - split; intros (s & [=] & _).
Qed.

Lemma checks_pass_unique (process_env : gmap string string)
    (url key url' key' : string) :
  checks_pass process_env url key -> checks_pass process_env url' key' ->
  url = url' /\ key = key'.
Proof.
  intros (_ & Hu & _ & a & Ha & Hk) (_ & Hu' & _ & a' & Ha' & Hk').
  rewrite Hu in Hu'. rewrite Ha in Ha'. injection Hu' as <-. injection Ha' as <-.
  split; [reflexivity|].
  destruct (nonempty (get process_env "SUPABASE_SERVICE_ROLE_KEY"));
    [destruct Hk as [_ ->], Hk' as [_ ->] | subst]; reflexivity.
Qed.

(** Either the checks pass, and the top level goes as [createClient]
    does, or they do not, and it exits with code 1. *)
Lemma boot_cases (process_env : gmap string string) :
  (exists url key,
     checks_pass process_env url key
     /\ forall createClient,
          boot createClient process_env
          = match createClient url key with
            | Some e => Uncaught e
            | None => ClientCreated url key
            end)
  \/ ((forall url key, ~ checks_pass process_env url key)
      /\ forall createClient, boot createClient process_env = Exit 1).
Proof.
  assert (Hreq : (0 <? length (missingEnvVars process_env))%nat = false
                 <-> forall v, v ∈ requiredEnvVars ->
                       exists s, process_env !! v = Some s /\ s <> "").
  { rewrite Nat.ltb_ge. unfold missingEnvVars.
    assert (Hl : forall l : list string, length l <= 0 <-> l = [])
      by (intros [|? ?]; simpl; split; (lia || congruence)).
    rewrite Hl, filter_nil. split; intros H v Hv.
    - apply truthy_get. apply negb_false_iff. now apply H.
    - apply negb_false_iff. apply truthy_get. now apply H. }
  unfold boot.
  destruct (0 <? length (missingEnvVars process_env))%nat eqn:Em.
  { right. split; [|reflexivity].
    intros url key [H _]. apply Hreq in H. congruence. }
  pose proof (proj1 Hreq eq_refl) as Hall.
  destruct (Hall "SUPABASE_URL") as (u & Hu & Hu');
    [unfold requiredEnvVars; repeat constructor|].
  destruct (Hall "SUPABASE_KEY") as (a & Ha & Ha');
    [unfold requiredEnvVars; repeat constructor|].
  assert (Gu : get process_env "SUPABASE_URL" = str u)
    by (unfold get; now rewrite Hu).
  assert (Ga : get process_env "SUPABASE_KEY" = str a)
    by (unfold get; now rewrite Ha).
  rewrite Gu, Ga. cbn [truthy ToString]. rewrite (eqb_nil_false u Hu').
  cbn [negb orb].
  destruct (startsWith u "https://") eqn:Es; cbn [negb].
  2:{ right. split; [|reflexivity].
      intros url key (_ & Hurl & Hrest & _).
      rewrite Hu in Hurl. injection Hurl as <-.
      apply startsWith_spec in Hrest. congruence. }
  apply startsWith_spec in Es.
  unfold checks_pass.
  destruct (get process_env "SUPABASE_SERVICE_ROLE_KEY") as [|sv] eqn:Gs.
  - left. exists u, a. split; [|reflexivity].
    split_and!; [exact Hall | exact Hu | exact Es |]. exists a.
    split; [exact Ha | reflexivity].
  - cbn [truthy nonempty strict_eq].
    destruct (String.eqb_spec sv "") as [->|Hsv]; cbn [negb andb].
    + left. exists u, a. split; [|reflexivity].
      split_and!; [exact Hall | exact Hu | exact Es |]. exists a.
      split; [exact Ha | reflexivity].
    + destruct (String.eqb_spec sv a) as [->|Hne].
      * right. split; [|reflexivity].
        intros url key (_ & _ & _ & anon & Hanon & Hk & _).
        rewrite Ha in Hanon. congruence.
      * left. exists u, sv. split.
        -- split_and!; [exact Hall | exact Hu | exact Es |]. exists a.
           split; [exact Ha | split; [exact Hne | reflexivity]].
        -- intros createClient.
           rewrite (or_truthy (str sv)) by now apply truthy_str.
           reflexivity.
Qed.

(** X15: when the Supabase client is created.  When each of the six
    required variables is set and not empty, [SUPABASE_URL] starts with
    [https://], and the service role key, if set and not empty, differs
    from [SUPABASE_KEY], the top level calls [createClient] with that URL
    and with the service role key if there is one, else with
    [SUPABASE_KEY]; it goes on when [createClient] returns and dies with
    its error when it throws.  In every other case the process exits with
    code 1 and [createClient] is never called. *)
Theorem boot_creates_client
    (createClient : string -> string -> option Error)
    (process_env : gmap string string) :
  (forall url key,
     checks_pass process_env url key ->
     boot createClient process_env
     = match createClient url key with
       | Some e => Uncaught e
       | None => ClientCreated url key
       end)
  /\ (forall url key,
        boot createClient process_env = ClientCreated url key ->
        checks_pass process_env url key /\ createClient url key = None)
  /\ (forall e,
        boot createClient process_env = Uncaught e ->
        exists url key,
          checks_pass process_env url key /\ createClient url key = Some e)
  /\ (forall code,
        boot createClient process_env = Exit code ->
        code = 1%N
        /\ (forall url key, ~ checks_pass process_env url key)
        /\ forall createClient', boot createClient' process_env = Exit 1).
Proof.
  destruct (boot_cases process_env) as [(u & k & Hc & Hb)|[Hno Hb]];
    rewrite Hb; split_and!.
  - intros url key H.
    destruct (checks_pass_unique _ _ _ _ _ Hc H) as [<- <-]. reflexivity.
  - intros url key H. destruct (createClient u k) eqn:E; [discriminate|].
    injection H as <- <-. auto.
  - intros e H. destruct (createClient u k) eqn:E; [|discriminate].
    injection H as <-. eauto.
  - intros code H. destruct (createClient u k); discriminate.
  - intros url key H. now apply Hno in H.
  - discriminate.
  - discriminate.
  - intros code [= <-]. auto.
Qed.

End StartupClaims.

Lemma boot_creates_client_witness :
  boot (fun _ _ => None) process_env_ok
  = ClientCreated "https://demo.supabase.co" "service-key"
  /\ boot (fun _ _ => None) (<["SUPABASE_KEY" := "service-key"]> process_env_ok)
     = Exit 1.
Proof.
  split.
  - apply (proj1 (boot_creates_client (fun _ _ => None) process_env_ok)
             "https://demo.supabase.co" "service-key").
    split_and!.
    + intros v Hv. unfold requiredEnvVars in Hv.
      repeat (apply elem_of_cons in Hv as [->|Hv];
              [eexists; split; [vm_compute; reflexivity | discriminate]|]).
      apply elem_of_nil in Hv. contradiction.
    + vm_compute. reflexivity.
    + exists "demo.supabase.co". reflexivity.
    + exists "anon-key". split; [vm_compute; reflexivity|].
      vm_compute. split; [discriminate | reflexivity].
  - apply (proj2 (proj2 (proj2 (boot_creates_client (fun _ _ => None)
             (<["SUPABASE_KEY" := "service-key"]> process_env_ok))))
             1%N).
    vm_compute. reflexivity.
Defined.

Section MoreHandlerClaims.
Variable env : Collaborators.

Lemma row_errors_sublist (rows : list RawRow) :
  (re_row <$> row_errors rows) `sublist_of` rows.
Proof.
  induction rows as [|row rows IH]; [constructor|].
  unfold row_errors, rejected in *. simpl.
  destruct (accepted_or_rejected row) as [[d ->]|[e ->]]; simpl.
  - now apply sublist_cons.
  - now apply sublist_skip.
Qed.

Lemma row_errors_reason (rows : list RawRow) (re : RowError) :
  re ∈ row_errors rows ->
  validateCsvRow (re_row re) = Return (invalid (re_error re)).
Proof.
  induction rows as [|row rows IH]; unfold row_errors, rejected in *; simpl.
  - intros H. apply elem_of_nil in H. contradiction.
  - destruct (validateCsvRow row) as [[e|d]|e] eqn:E; simpl; try exact IH.
    intros H. apply elem_of_cons in H as [->|H]; [exact E | now apply IH].
Qed.

(** X17: the row errors of an answer.  Whatever the handler answers, the
    errors it reports are rows of the file, as they were read and in the
    order of the file; each carries the reason [validateCsvRow] gives for
    that row, which is the missing-fields message or the invalid-email
    message with the row's address cell in it. *)
Theorem upload_csv_row_errors (rows : list RawRow) (w w' : World)
    (response : Response) :
  upload_csv env rows w = (w', Return response) ->
  let errors :=
    match body response with
    | NoValidRecords _ validationErrors => validationErrors
    | Report _ _ _ _ csvValidationErrors => csvValidationErrors
    end in
  (re_row <$> errors) `sublist_of` rows
  /\ Forall
       (fun re =>
          validateCsvRow (re_row re) = Return (invalid (re_error re))
          /\ (re_error re = "Missing required fields: Name and Email"
              \/ exists e, resolve_email (re_row re) = str e
                           /\ re_error re = "Invalid email format: " ++ e))
       errors.
Proof.
  intros H errors.
  assert (E : errors = row_errors rows).
  { subst errors. rewrite upload_csv_unfold in H.
    destruct (valid_students rows); injection H as _ <-; reflexivity. }
  rewrite E. split; [apply row_errors_sublist|].
  apply Forall_forall. intros re Hre.
  pose proof (row_errors_reason rows re Hre) as Hv. split; [exact Hv|].
  destruct (truthy (resolve_studentName (re_row re))) eqn:Tn.
  2:{ rewrite validateCsvRow_missing in Hv by auto. left.
      injection Hv as <-. reflexivity. }
  destruct (truthy (resolve_email (re_row re))) eqn:Te.
  2:{ rewrite validateCsvRow_missing in Hv by auto. left.
      injection Hv as <-. reflexivity. }
  apply truthy_true_iff in Tn as (n & Hn & Hn').
  apply truthy_true_iff in Te as (e & He & He').
  rewrite (validateCsvRow_present _ n e) in Hv by assumption.
  destruct (test_string emailRegex e); [discriminate|].
  right. exists e. split; [exact He | congruence].
Qed.


End MoreHandlerClaims.

Lemma upload_csv_row_errors_witness :
  [row_no_email; row_not_an_email]
    `sublist_of` [row_no_email; row_ann; row_not_an_email]
  /\ Forall
       (fun re =>
          validateCsvRow (re_row re) = Return (invalid (re_error re))
          /\ (re_error re = "Missing required fields: Name and Email"
              \/ exists e, resolve_email (re_row re) = str e
                           /\ re_error re = "Invalid email format: " ++ e))
       [mkRowError row_no_email missing_fields;
        mkRowError row_not_an_email "Invalid email format: not-an-email"].
Proof.
  apply (upload_csv_row_errors env_ok
           [row_no_email; row_ann; row_not_an_email] world0
           (upload_csv env_ok [row_no_email; row_ann; row_not_an_email]
              world0).1
           (mkResponse 200
              (Report "CSV processing completed" (mkSummary 1 1 0)
                 [mkProcessed "Ann Lee" "ann@x.com" "cert_0" "Success"
                    (demo_url "Mediseek/cert_0.pdf")]
                 []
                 [mkRowError row_no_email missing_fields;
                  mkRowError row_not_an_email
                    "Invalid email format: not-an-email"]))).
  vm_compute. reflexivity.
Defined.

